(** * selectionBiasChallenge: the masking and validation code, verified

    A shallow embedding of
    - [create_masked_stipple] (step5_create_masked.py), and
    - the shape validation of [create_statistics_meme] (create_meme.py),
    over a small model of the NumPy arrays they work on.

    Arrays are Python objects: a variable holds a reference, [copy()]
    allocates, and [a[mask] = v] writes through the reference.  The
    embedding therefore runs in a state-and-exception monad over a heap of
    arrays, so that aliasing between the arguments and the result can be
    stated and proved rather than assumed away.

    The function is embedded twice.  The first embedding works on
    [float64] arrays; the laws that do not depend on the precision of the
    comparison are proved on it.  The second carries the dtype of every
    array, rounds the threshold to the dtype of the mask as NumPy does,
    and also computes the numbers the function reports; what a pixel of
    the result is, and what the counts are, is proved on it.  On
    [float64] arrays the two agree. *)

From Stdlib Require Import ZArith SpecFloat Ascii DecimalString DecimalNat.
From Stdlib Require Strings.Byte.
From stdpp Require Import base option list gmap strings.


(** ** Pixel values

    Pixels are IEEE 754 binary64 numbers (NumPy's default [float64], and
    Python's [float]), in the inductive presentation of the Standard
    Library.  Comparisons follow IEEE: anything compared with a NaN is
    false. *)
Module float64.

Definition t : Type := spec_float.

Definition prec : Z := 53.
Definition emax : Z := 1024.

(** The literals [0] / [0.0] and [1.0]. *)
Definition zero : t := S754_zero false.
Definition one : t := S754_finite false 4503599627370496 (-52).

(** [x < y], [x <= y], [x >= y] and [x == y]. *)
Definition lt (x y : t) : bool := SFltb x y.
Definition le (x y : t) : bool := SFleb x y.
Definition ge (x y : t) : bool :=
  match SFcompare x y with
  | Some (Gt | Eq) => true
  | _ => false
  end.
Definition eqb (x y : t) : bool := SFeqb x y.

(** Membership in the closed range [[0, 1]] of the image data model. *)
Definition in_unit (x : t) : bool := ge x zero && le x one.

End float64.

(** ** Python values used by the two functions *)

(** A shape is a tuple of non-negative integers. *)
Definition shape_t : Type := list nat.

(** [str(n)] of a non-negative integer: its decimal digits. *)
Definition str_int (n : nat) : string :=
  NilEmpty.string_of_uint (Nat.to_uint n).

(** [repr] of a tuple of integers, as an f-string interpolates it:
    [()], [(5,)], [(10, 11)], ... *)
Fixpoint join (sep : string) (parts : list string) : string :=
  match parts with
  | [] => ""
  | [p] => p
  | p :: rest => p +:+ sep +:+ join sep rest
  end.

Definition repr_tuple (sh : shape_t) : string :=
  match sh with
  | [] => "()"
  | [n] => "(" +:+ str_int n +:+ ",)"
  | _ => "(" +:+ join ", " (str_int <$> sh) +:+ ")"
  end.

Inductive exn : Type :=
  | ValueError (msg : string)
  | IndexError (msg : string).

(** ** NumPy arrays

    An array is its shape together with its elements in row-major order. *)
Record ndarray (A : Type) : Type := NDArray {
  shape : shape_t;
  data : list A
}.
Arguments NDArray {A} shape data.
Arguments shape {A} _.
Arguments data {A} _.

Module np.

(** [a.size]: the product of the dimensions. *)
Definition size {A} (a : ndarray A) : nat := foldr Nat.mul 1 (shape a).

(** The buffer of an array holds exactly [a.size] elements. *)
Definition wf {A} (a : ndarray A) : Prop := length (data a) = size a.

(** [a[r, c]] on a two-dimensional array, for indices counted from the
    top-left corner; [None] stands for the IndexError of an index out
    of range or an array of another rank. *)
Definition item2 {A} (a : ndarray A) (r c : nat) : option A :=
  match shape a with
  | [h; w] => if decide (r < h ∧ c < w) then data a !! (r * w + c) else None
  | _ => None
  end.

(** [np.zeros(sh)] *)
Definition zeros (sh : shape_t) : ndarray float64.t :=
  NDArray sh (replicate (foldr Nat.mul 1 sh) float64.zero).

(** [a < t] with a scalar [t]: a fresh boolean array of the same shape. *)
Definition less (a : ndarray float64.t) (t : float64.t) : ndarray bool :=
  NDArray (shape a) ((λ x, float64.lt x t) <$> data a).

(** The element-wise core of [a[mask] = v]: where the mask is true the
    element becomes [v]; the buffer keeps its length. *)
Fixpoint putmask {A} (xs : list A) (mask : list bool) (v : A) : list A :=
  match xs, mask with
  | x :: xs', b :: mask' => (if b then v else x) :: putmask xs' mask' v
  | _, _ => xs
  end.

(** A boolean index consumes as many leading axes as it has dimensions,
    and must agree with them. *)
Fixpoint index_axes (mask_shape sh : shape_t) : option shape_t :=
  match mask_shape, sh with
  | [], rest => Some rest
  | k :: mask_shape', n :: sh' =>
      if decide (k = n) then index_axes mask_shape' sh' else None
  | _ :: _, [] => None
  end.

(** [a[mask] = v] on array values: every selected element (a whole
    sub-array when the mask has fewer axes than [a]) is overwritten. *)
Definition setitem_mask {A} (a : ndarray A) (mask : ndarray bool) (v : A)
  : exn + ndarray A :=
  match index_axes (shape mask) (shape a) with
  | Some rest =>
      let block := foldr Nat.mul 1 rest in
      inr (NDArray (shape a)
             (putmask (data a) (b ← data mask; replicate block b) v))
  | None => inl (IndexError "boolean index did not match indexed array")
  end.

End np.

(** ** The interpreter state: a heap of arrays

    References are heap locations.  A computation either returns a value
    or raises, and hands back the heap it leaves behind.  [None] is the
    outcome of following a reference that is not bound, which Python rules
    out: every theorem below starts from bound references. *)
Module py.

Abbreviation ref := positive.
Abbreviation heap := (gmap positive (ndarray float64.t)).

Inductive result (A : Type) : Type :=
  | Return (a : A)
  | Raise (e : exn).
Arguments Return {A} a.
Arguments Raise {A} e.

Definition M (A : Type) : Type := heap → option (result A * heap).

Definition ret {A} (a : A) : M A := λ σ, Some (Return a, σ).

Definition bind {A B} (c : M A) (k : A → M B) : M B := λ σ,
  match c σ with
  | Some (Return a, σ') => k a σ'
  | Some (Raise e, σ') => Some (Raise e, σ')
  | None => None
  end.

Definition raise {A} (e : exn) : M A := λ σ, Some (Raise e, σ).

(** Lift the outcome of an operation on array values. *)
Definition lift {A} (r : exn + A) : M A :=
  match r with
  | inl e => raise e
  | inr a => ret a
  end.

(** Read the array behind a reference. *)
Definition load (r : ref) : M (ndarray float64.t) := λ σ,
  a ← σ !! r; Some (Return a, σ).

(** Allocate a new array object. *)
Definition alloc (a : ndarray float64.t) : M ref := λ σ,
  let r := fresh (dom σ) in Some (Return r, <[r := a]> σ).

(** Overwrite the array behind a reference, in place. *)
Definition store (r : ref) (a : ndarray float64.t) : M unit := λ σ,
  _ ← σ !! r; Some (Return (), <[r := a]> σ).

End py.

Declare Scope py_scope.
Delimit Scope py_scope with py.
Notation "'let!' x ':=' c 'in' k" := (py.bind c (λ x, k))
  (at level 10, x name, c at level 100, k at level 200,
   format "'[v' 'let!'  x  :=  c  'in' '/' k ']'") : py_scope.
Notation "'exec!' c 'in' k" := (py.bind c (λ _, k))
  (at level 10, c at level 100, k at level 200,
   format "'[v' 'exec!'  c  'in' '/' k ']'") : py_scope.

(** The array methods the program calls, on references. *)
Module ndarray_ops.
Import py.
Local Open Scope py_scope.

(** [a.shape] *)
Definition get_shape (a : ref) : M shape_t :=
  let! v := load a in ret (shape v).

(** [a.copy()]: a new object with the same shape and elements. *)
Definition copy (a : ref) : M ref :=
  let! v := load a in alloc v.

(** [a < t]: the boolean array is a temporary that no reference held by
    the caller can reach; it is kept as a value. *)
Definition less (a : ref) (t : float64.t) : M (ndarray bool) :=
  let! v := load a in ret (np.less v t).

(** [a[mask] = v] *)
Definition setitem_mask (a : ref) (mask : ndarray bool) (v : float64.t)
  : M unit :=
  let! old := load a in
  let! new := lift (np.setitem_mask old mask v) in
  store a new.

End ndarray_ops.

(** ** step5_create_masked.py *)
Module step5_create_masked.
Import py.
Local Open Scope py_scope.

Definition shape_error (stipple_shape mask_shape : shape_t) : exn :=
  ValueError ("Input images must have the same shape. "
              +:+ "stipple_img shape: " +:+ repr_tuple stipple_shape +:+ ", "
              +:+ "mask_img shape: " +:+ repr_tuple mask_shape).

(** [create_masked_stipple(stipple_img, mask_img, threshold)].  The
    counts computed and printed after the assignment (lines 62 to 78)
    only read the three arrays and do not raise (for an empty image the
    percentage is a NaN); they are left out. *)
Definition create_masked_stipple
    (stipple_img mask_img : ref) (threshold : float64.t) : M ref :=
  let! stipple_shape := ndarray_ops.get_shape stipple_img in
  let! mask_shape := ndarray_ops.get_shape mask_img in
  if bool_decide (stipple_shape ≠ mask_shape) then
    raise (shape_error stipple_shape mask_shape)
  else
    let! masked_stipple := ndarray_ops.copy stipple_img in
    let! mask_regions := ndarray_ops.less mask_img threshold in
    exec! ndarray_ops.setitem_mask masked_stipple mask_regions float64.one in
    ret masked_stipple.

End step5_create_masked.

(** ** create_meme.py *)
Module create_meme.
Import py.

(** What [img_height, img_width = original_img.shape] raises when the
    shape does not have exactly two entries (CPython's wording). *)
Definition unpack_error (ndim : nat) : exn :=
  if decide (ndim < 2) then
    ValueError ("not enough values to unpack (expected 2, got "
                +:+ str_int ndim +:+ ")")
  else ValueError "too many values to unpack (expected 2)".

Definition dimension_error
    (name : string) (sh : shape_t) (img_height img_width : nat) : exn :=
  ValueError ("All images must have the same dimensions. "
              +:+ name +:+ " has shape " +:+ repr_tuple sh
              +:+ ", expected (" +:+ str_int img_height +:+ ", "
              +:+ str_int img_width +:+ ")").

(** The loop [for name, img in images: if img.shape != (h, w): raise]. *)
Fixpoint check_images (images : list (string * ndarray float64.t))
    (img_height img_width : nat) : exn + unit :=
  match images with
  | [] => inr ()
  | (name, img) :: images' =>
      if bool_decide (shape img ≠ [img_height; img_width]) then
        inl (dimension_error name (shape img) img_height img_width)
      else check_images images' img_height img_width
  end.

(** [create_statistics_meme], lines 55 to 70: the validation that runs
    before any drawing.  The function only reads its arguments, which
    are therefore taken by value.  A normal outcome carries
    [(img_height, img_width)], from which the layout and the matplotlib
    calls that follow (not embedded) start. *)
Definition create_statistics_meme
    (original_img stipple_img block_letter_img masked_stipple_img
       : ndarray float64.t) : exn + nat * nat :=
  match shape original_img with
  | [img_height; img_width] =>
      let images := [("original_img", original_img);
                     ("stipple_img", stipple_img);
                     ("block_letter_img", block_letter_img);
                     ("masked_stipple_img", masked_stipple_img)] in
      match check_images images img_height img_width with
      | inl e => inl e
      | inr _ => inr (img_height, img_width)
      end
  | sh => inl (unpack_error (length sh))
  end.

End create_meme.

(** ** Auxiliary definitions for the statements *)

(** The array a successful call of [create_masked_stipple] leaves behind
    the reference it returns (see [create_masked_stipple_run]). *)
Definition masked (S M : ndarray float64.t) (t : float64.t)
  : ndarray float64.t :=
  NDArray (shape S)
    (np.putmask (data S) ((λ y, float64.lt y t) <$> data M) float64.one).

(** The characters [str_int] produces. *)
Definition is_digit (c : ascii) : bool :=
  match c with
  | "0" | "1" | "2" | "3" | "4" | "5" | "6" | "7" | "8" | "9" => true
  | _ => false
  end%char.

(** Concrete images on which the theorems are exercised. *)
Module examples.
Import float64.

Definition half : t := S754_finite false 4503599627370496 (-53).

Definition stipple : ndarray t := NDArray [2; 2] [zero; half; zero; one].
Definition mask : ndarray t := NDArray [2; 2] [zero; half; one; zero].
Definition mask' : ndarray t := NDArray [2; 2] [one; zero; half; zero].
Definition wide_mask : ndarray t :=
  NDArray [2; 3] [zero; half; one; zero; zero; zero].

(** A heap in which references 1 to 5 are bound. *)
Definition heap0 : py.heap :=
  <[1%positive := stipple]> (<[2%positive := mask]>
  (<[3%positive := mask']> (<[4%positive := wide_mask]>
  (<[5%positive := np.zeros [2; 2]]> ∅)))).

Definition img (h w : nat) : ndarray t := np.zeros [h; w].
End examples.

(** ** Arrays of either float type

    The mask that step 4 hands to step 5 is a [float32] array (line 137 of
    step4_create_block_letter.py).  NumPy compares a [float32] array with
    a Python float in [float32], after rounding the scalar to [float32],
    and a Python float assigned into an array is rounded to the type of
    the array.  The arrays below carry their dtype, and their elements
    are values of that format. *)
Module dtypes.

Inductive dtype : Type := F32 | F64.

(** A binary64 number rounded to [float32], to nearest, ties to even. *)
Definition round32 (x : float64.t) : spec_float :=
  match x with
  | S754_finite s m e =>
      binary_normalize 24 128 (if s then Z.neg m else Z.pos m) e s
  | _ => x
  end.

(** A Python float as a scalar of the dtype. *)
Definition cast (d : dtype) (x : float64.t) : spec_float :=
  match d with
  | F32 => round32 x
  | F64 => x
  end.

(** The number an element stands for, as a binary64 (exact for both
    dtypes). *)
Definition widen (x : spec_float) : float64.t :=
  match x with
  | S754_finite s m e =>
      binary_normalize float64.prec float64.emax
        (if s then Z.neg m else Z.pos m) e s
  | _ => x
  end.

Record tarray : Type := TArray {
  dt : dtype;
  values : ndarray spec_float
}.

(** [a < t] and [a == t] with a Python float [t]. *)
Definition less (a : tarray) (t : float64.t) : ndarray bool :=
  NDArray (shape (values a))
    ((λ x, SFltb x (cast (dt a) t)) <$> data (values a)).

Definition equal (a : tarray) (t : float64.t) : ndarray bool :=
  NDArray (shape (values a))
    ((λ x, SFeqb x (cast (dt a) t)) <$> data (values a)).

(** [a[mask] = v] with a Python float [v]. *)
Definition setitem_mask (a : tarray) (mask : ndarray bool) (v : float64.t)
  : exn + tarray :=
  match np.setitem_mask (values a) mask (cast (dt a) v) with
  | inl e => inl e
  | inr new => inr (TArray (dt a) new)
  end.

End dtypes.

(** The heap of typed arrays, with the same outcomes as [py]. *)
Module pyt.
Import dtypes.

Abbreviation heap := (gmap positive tarray).

Definition M (A : Type) : Type := heap → option (py.result A * heap).

Definition ret {A} (a : A) : M A := λ σ, Some (py.Return a, σ).

Definition bind {A B} (c : M A) (k : A → M B) : M B := λ σ,
  match c σ with
  | Some (py.Return a, σ') => k a σ'
  | Some (py.Raise e, σ') => Some (py.Raise e, σ')
  | None => None
  end.

Definition raise {A} (e : exn) : M A := λ σ, Some (py.Raise e, σ).

Definition lift {A} (r : exn + A) : M A :=
  match r with
  | inl e => raise e
  | inr a => ret a
  end.

Definition load (r : positive) : M tarray := λ σ,
  a ← σ !! r; Some (py.Return a, σ).

Definition alloc (a : tarray) : M positive := λ σ,
  let r := fresh (dom σ) in Some (py.Return r, <[r := a]> σ).

Definition store (r : positive) (a : tarray) : M unit := λ σ,
  _ ← σ !! r; Some (py.Return (), <[r := a]> σ).

End pyt.

Declare Scope pyt_scope.
Delimit Scope pyt_scope with pyt.
Notation "'let!' x ':=' c 'in' k" := (pyt.bind c (λ x, k))
  (at level 10, x name, c at level 100, k at level 200,
   format "'[v' 'let!'  x  :=  c  'in' '/' k ']'") : pyt_scope.
Notation "'exec!' c 'in' k" := (pyt.bind c (λ _, k))
  (at level 10, c at level 100, k at level 200,
   format "'[v' 'exec!'  c  'in' '/' k ']'") : pyt_scope.

(** ** step5_create_masked.py on typed arrays, with what it reports

    The whole of [create_masked_stipple], lines 44 to 80.  The numbers of
    lines 62 to 70, which the prints of lines 72 to 78 write to standard
    output, are returned in a record beside the reference; the prints
    themselves (text formatting) are not modelled. *)
Module step5_dtype.
Import dtypes pyt.
Local Open Scope pyt_scope.

(** NumPy's [int64], the type in which [np.sum] adds up booleans. *)
Definition int64 (z : Z) : Z := ((z + 2 ^ 63) `mod` 2 ^ 64 - 2 ^ 63)%Z.

(** [np.sum(b)] of a boolean array. *)
Definition sum (b : ndarray bool) : Z :=
  foldr (λ x acc, int64 (Z.b2z x + acc)) 0%Z (data b).

(** An integer operand of a float operation, rounded to binary64. *)
Definition float_of_int (z : Z) : float64.t :=
  binary_normalize float64.prec float64.emax z 0 false.

(** Line 65, [(mask_pixels / total_pixels) * 100]: a true division in
    binary64.  Dividing by zero does not raise here: NumPy warns and the
    quotient is a NaN or an infinity, as IEEE division gives it. *)
Definition percentage (mask_pixels total_pixels : Z) : float64.t :=
  SFmul float64.prec float64.emax
    (SFdiv float64.prec float64.emax
       (float_of_int mask_pixels) (float_of_int total_pixels))
    (float_of_int 100).

(** The array methods, on references. *)
Definition get_shape (a : positive) : M shape_t :=
  let! v := load a in ret (shape (values v)).

Definition get_size (a : positive) : M Z :=
  let! v := load a in ret (Z.of_nat (np.size (values v))).

Definition copy (a : positive) : M positive :=
  let! v := load a in alloc v.

Definition less_ref (a : positive) (t : float64.t) : M (ndarray bool) :=
  let! v := load a in ret (less v t).

Definition equal_ref (a : positive) (t : float64.t) : M (ndarray bool) :=
  let! v := load a in ret (equal v t).

Definition setitem_mask_ref
    (a : positive) (mask : ndarray bool) (v : float64.t) : M unit :=
  let! old := load a in
  let! new := lift (setitem_mask old mask v) in
  store a new.

Record report : Type := Report {
  total_pixels : Z;
  mask_pixels : Z;
  mask_percentage : float64.t;
  original_stipples : Z;
  remaining_stipples : Z;
  removed_stipples : Z
}.

Definition create_masked_stipple
    (stipple_img mask_img : positive) (threshold : float64.t)
  : M (positive * report) :=
  let! stipple_shape := get_shape stipple_img in
  let! mask_shape := get_shape mask_img in
  if bool_decide (stipple_shape ≠ mask_shape) then
    raise (step5_create_masked.shape_error stipple_shape mask_shape)
  else
    let! masked_stipple := copy stipple_img in
    let! mask_regions := less_ref mask_img threshold in
    exec! setitem_mask_ref masked_stipple mask_regions float64.one in
    let! total_pixels := get_size stipple_img in
    let mask_pixels := sum mask_regions in
    let mask_percentage := percentage mask_pixels total_pixels in
    let! stipple_dots := equal_ref stipple_img float64.zero in
    let original_stipples := sum stipple_dots in
    let! masked_dots := equal_ref masked_stipple float64.zero in
    let remaining_stipples := sum masked_dots in
    let removed_stipples := int64 (original_stipples - remaining_stipples) in
    ret (masked_stipple,
         Report total_pixels mask_pixels mask_percentage original_stipples
           remaining_stipples removed_stipples).

End step5_dtype.

(** The array a successful call on typed arrays leaves behind the
    reference it returns. *)
Definition masked_t (S M : dtypes.tarray) (t : float64.t) : dtypes.tarray :=
  dtypes.TArray (dtypes.dt S)
    (NDArray (shape (dtypes.values S))
       (np.putmask (data (dtypes.values S))
          ((λ y, SFltb y (dtypes.cast (dtypes.dt M) t))
             <$> data (dtypes.values M))
          (dtypes.cast (dtypes.dt S) float64.one))).

(** A [float64] stipple image and the [float32] mask of its shape, as the
    pipeline produces them, and the threshold 0.7. *)
Module examples3.
Import dtypes.

Definition c0_7 : float64.t := S754_finite false 6305039478318694 (-53).
Definition c0_7f : spec_float := S754_finite false 11744051 (-24).
Definition half_f : spec_float := S754_finite false 8388608 (-24).
Definition one_f : spec_float := S754_finite false 8388608 (-23).

Definition stipple : tarray :=
  TArray F64 (NDArray [2; 2] [float64.zero; examples.half;
                              float64.zero; examples.half]).
Definition mask : tarray :=
  TArray F32 (NDArray [2; 2] [float64.zero; half_f; one_f; c0_7f]).

Definition heap0 : pyt.heap :=
  <[1%positive := stipple]> (<[2%positive := mask]> ∅).

(** One pixel, a dot, under a mask pixel of [float32(0.7)]. *)
Definition dot : tarray := TArray F64 (NDArray [1; 1] [float64.zero]).
Definition edge : tarray := TArray F32 (NDArray [1; 1] [c0_7f]).
Definition heap1 : pyt.heap :=
  <[1%positive := dot]> (<[2%positive := edge]> ∅).

End examples3.

(** ** step4_create_block_letter.py

    The parts of [create_block_letter_s] that are the program's own: the
    table of candidate fonts and the order in which they are tried, the
    centring arithmetic, the offsets of the fallback stroke, and the
    conversion of the finished canvas to an array.  Pillow's font loader
    is a parameter; its rasteriser is not modelled. *)
Module float32.

Definition t : Type := spec_float.

Definition prec : Z := 24.
Definition emax : Z := 128.

Definition zero : t := S754_zero false.
Definition one : t := S754_finite false 8388608 (-23).

(** The scalar [255.0] as the [float32] it is divided in. *)
Definition c255 : t := S754_finite false 16711680 (-16).

(** A [uint8] converted to [float32] (exact). *)
Definition of_uint8 (p : Byte.byte) : t :=
  binary_normalize prec emax (Z.of_N (Byte.to_N p)) 0 false.

Definition div (x y : t) : t := SFdiv prec emax x y.

Definition lt (x y : t) : bool := SFltb x y.
Definition le (x y : t) : bool := SFleb x y.
Definition eqb (x y : t) : bool := SFeqb x y.

Definition in_unit (x : t) : bool := le zero x && le x one.

End float32.

Module step4_create_block_letter.

(** Lines 56 to 75: the candidates for [platform.system()]. *)
Definition font_paths (system : string) : list string :=
  if String.eqb system "Darwin" then
    ["/System/Library/Fonts/Helvetica.ttc";
     "/System/Library/Fonts/Supplemental/Arial Bold.ttf";
     "/Library/Fonts/Arial Bold.ttf";
     "/System/Library/Fonts/HelveticaNeue.ttc"]
  else if String.eqb system "Windows" then
    ["C:/Windows/Fonts/arialbd.ttf";
     "C:/Windows/Fonts/calibrib.ttf";
     "C:/Windows/Fonts/impact.ttf"]
  else
    ["/usr/share/fonts/truetype/dejavu/DejaVuSans-Bold.ttf";
     "/usr/share/fonts/truetype/liberation/LiberationSans-Bold.ttf";
     "/usr/share/fonts/truetype/noto/NotoSans-Bold.ttf"].

(** [s.endswith(suffix)] *)
Definition endswith (s suffix : string) : bool :=
  String.prefix (String.rev suffix) (String.rev s).

(** What a call of [ImageFont.truetype] does: it returns a font, raises
    [OSError] (of which [IOError] is an alias), or raises something the
    function does not catch. *)
Inductive attempt (font : Type) : Type :=
  | Loaded (f : font)
  | OSError
  | Failed (e : exn).
Arguments Loaded {font} f.
Arguments OSError {font}.
Arguments Failed {font} e.

Section fonts.
Context {font : Type}.
(** [ImageFont.truetype(path, size)] and, with [Some i],
    [ImageFont.truetype(path, size, index=i)]. *)
Variable truetype : string → Z → option Z → attempt font.
(** [ImageFont.load_default()] *)
Variable load_default : font.

(** Lines 78 to 88: the loop over the candidates; [inr None] is leaving
    the loop with [font] still [None]. *)
Fixpoint try_paths (paths : list string) (font_size : Z)
  : exn + option font :=
  match paths with
  | [] => inr None
  | font_path :: paths' =>
      match (if endswith font_path ".ttc"
             then truetype font_path font_size (Some 0%Z)
             else truetype font_path font_size None) with
      | Loaded f => inr (Some f)
      | OSError => try_paths paths' font_size
      | Failed e => inl e
      end
  end.

(** Lines 53 to 98: the font the letter is drawn with. *)
Definition load_font (system : string) (font_size : Z) : exn + font :=
  match try_paths (font_paths system) font_size with
  | inl e => inl e
  | inr (Some f) => inr f
  | inr None =>
      match truetype "arial.ttf" font_size None with
      | Loaded f => inr f
      | OSError => inr load_default
      | Failed e => inl e
      end
  end.
End fonts.

(** Lines 103 to 113, for a font object (which is always true in the
    test [if font]): where to draw so that the box [textbbox] measured
    at the origin ends up in the middle.  [//] on integers is [Z.div]. *)
Definition text_position (width height : Z) (bbox : Z * Z * Z * Z) : Z * Z :=
  let '(x0, y0, x1, y1) := bbox in
  let text_width := (x1 - x0)%Z in
  let text_height := (y1 - y0)%Z in
  (((width - text_width) `div` 2 - x0)%Z,
   ((height - text_height) `div` 2 - y0)%Z).

(** [range(a, b)] *)
Definition range (a b : Z) : list Z := seqZ a (b - a).

(** Lines 125 to 128: the offsets at which the fallback stroke stamps the
    letter, in the order of the two loops. *)
Definition stroke_offsets (stroke_width : Z) : list (Z * Z) :=
  dx ← range (- stroke_width) (stroke_width + 1);
  dy ← range (- stroke_width) (stroke_width + 1);
  if bool_decide (dx * dx + dy * dy ≤ stroke_width * stroke_width)%Z
  then [(dx, dy)] else [].

(** Lines 125 to 130: the positions of all [draw.text] calls of the
    fallback, the last one being the letter drawn on top. *)
Definition stroke_stamps (x y stroke_width : Z) : list (Z * Z) :=
  ((λ d, (x + d.1, y + d.2)%Z) <$> stroke_offsets stroke_width) ++ [(x, y)].

(** A Pillow image of mode ['L']: its size and its bytes, row by row. *)
Record pil_image : Type := PILImage {
  im_width : nat;
  im_height : nat;
  im_bytes : list Byte.byte
}.

Definition im_wf (img : pil_image) : Prop :=
  length (im_bytes img) = im_height img * im_width img.

(** [Image.new('L', (width, height), color)] *)
Definition image_new (width height : nat) (color : Byte.byte) : pil_image :=
  PILImage width height (replicate (height * width) color).

(** One element of [np.array(img, dtype=np.float32) / 255.0]. *)
Definition normalize (p : Byte.byte) : float32.t :=
  float32.div (float32.of_uint8 p) float32.c255.

(** Line 137: [np.array(img, dtype=np.float32) / 255.0]. *)
Definition to_array (img : pil_image) : ndarray float32.t :=
  NDArray [im_height img; im_width img] (normalize <$> im_bytes img).

End step4_create_block_letter.

(** ** step4_create_block_letter.py, lines 48 and 49: the font size

    [int(min(height, width) * font_size_ratio * 1.15)], in binary64 as
    Python computes it: the integer is converted to a float, multiplied
    twice with rounding, and the product truncated towards zero. *)
Module step4_font_size.

Inductive outcome : Type :=
  | FontSize (n : Z)
  | RaisesValueError (msg : string)
  | RaisesOverflowError (msg : string).

(** The literal [1.15] and the default [font_size_ratio=0.95]. *)
Definition c1_15 : float64.t := S754_finite false 5179139571476070 (-52).
Definition default_ratio : float64.t :=
  S754_finite false 8556839292003942 (-53).

Definition mul (x y : float64.t) : float64.t :=
  SFmul float64.prec float64.emax x y.

(** The conversion of the integer operand of [int * float]; [None] is
    the OverflowError of an integer beyond the range of a float. *)
Definition float_of_int (n : Z) : option float64.t :=
  match binary_normalize float64.prec float64.emax n 0 false with
  | S754_infinity _ => None
  | x => Some x
  end.

(** [int(x)] *)
Definition int_of_float (x : float64.t) : outcome :=
  match x with
  | S754_zero _ => FontSize 0
  | S754_finite s m e =>
      let magnitude := Z.shiftl (Z.pos m) e in
      FontSize (if s then - magnitude else magnitude)%Z
  | S754_infinity _ =>
      RaisesOverflowError "cannot convert float infinity to integer"
  | S754_nan => RaisesValueError "cannot convert float NaN to integer"
  end.

Definition font_size (height width : nat) (font_size_ratio : float64.t)
  : outcome :=
  let min_dimension := Z.of_nat (Nat.min height width) in
  match float_of_int min_dimension with
  | None => RaisesOverflowError "int too large to convert to float"
  | Some x => int_of_float (mul (mul x font_size_ratio) c1_15)
  end.

End step4_font_size.

(** The float a grey level converts to, by the number of the level. *)
Definition grey_level (n : nat) : float32.t :=
  match Byte.of_nat n with
  | Some p => step4_create_block_letter.normalize p
  | None => float32.one
  end.

(** The bounds on the font size for one dimension, as a test. *)
Definition font_size_check (n : nat) : bool :=
  match step4_font_size.font_size n n step4_font_size.default_ratio with
  | step4_font_size.FontSize fs =>
      bool_decide (Z.of_nat n ≤ fs ∧ 400 * fs ≤ 437 * Z.of_nat n
                   ∧ 437 * Z.of_nat n < 400 * (fs + 2))%Z
  | _ => false
  end.

(** The number of [True] entries, in unbounded arithmetic. *)
Definition count_true (l : list bool) : Z :=
  foldr (λ b acc, (Z.b2z b + acc)%Z) 0%Z l.

(** More data to exercise the theorems on. *)
Module examples2.
Import step4_create_block_letter.

(** A machine on which only Liberation Sans is installed; a font is
    represented by the path it was loaded from. *)
Definition only_liberation (path : string) (size : Z) (index : option Z)
  : attempt string :=
  if String.eqb path
       "/usr/share/fonts/truetype/liberation/LiberationSans-Bold.ttf"
  then Loaded path else OSError.

(** A 3 by 2 canvas with one black and one grey pixel. *)
Definition canvas : pil_image :=
  PILImage 3 2 [Byte.xff; Byte.x00; Byte.xff; Byte.x80; Byte.xff; Byte.xff].

End examples2.

(** * Properties *)

(** ** Sanity of the model *)

Example one_is_1 :
  binary_normalize float64.prec float64.emax 1 0 false = float64.one.
Proof. vm_compute. reflexivity. Qed.

Example half_is_one_half :
  binary_normalize float64.prec float64.emax 1 (-1) false = examples.half.
Proof. vm_compute. reflexivity. Qed.

Example comparisons :
  float64.lt examples.half float64.one = true
  ∧ float64.lt float64.one float64.one = false
  ∧ float64.lt S754_nan float64.one = false
  ∧ float64.ge (S754_zero true) float64.zero = true
  ∧ float64.in_unit examples.half = true
  ∧ float64.in_unit S754_nan = false.
Proof. vm_compute. done. Qed.

(** A mask with fewer axes than the array selects whole rows. *)
Example setitem_mask_rows :
  np.setitem_mask (NDArray [2; 2] [1; 2; 3; 4]) (NDArray [2] [false; true]) 0
  = inr (NDArray [2; 2] [1; 2; 0; 0])
  ∧ np.setitem_mask (NDArray [2; 2] [1; 2; 3; 4])
      (NDArray [2; 2] [false; true; true; false]) 0
    = inr (NDArray [2; 2] [1; 0; 0; 4])
  ∧ np.setitem_mask (NDArray [2; 2] [1; 2; 3; 4])
      (NDArray [2; 3] [false; true; true; false; true; true]) 0
    = inl (IndexError "boolean index did not match indexed array").
Proof. vm_compute. done. Qed.

Example create_masked_stipple_runs :
  step5_create_masked.create_masked_stipple 1 2 examples.half examples.heap0
  = Some (py.Return 6%positive,
          <[6%positive := NDArray [2; 2] [float64.one; examples.half;
                                          float64.zero; float64.one]]>
            examples.heap0).
Proof. vm_compute. reflexivity. Qed.

Example repr_tuple_examples :
  repr_tuple [] = "()" ∧ repr_tuple [5] = "(5,)"
  ∧ repr_tuple [10; 11] = "(10, 11)" ∧ repr_tuple [2; 0; 30] = "(2, 0, 30)".
Proof. vm_compute. done. Qed.

(** ** Error messages determine the shapes they report

    A printed integer consists of digits only, so the separators of a
    printed tuple delimit its entries unambiguously: what follows a
    printed shape in a message can be told apart from it. *)
Section repr.
Implicit Types (c : ascii) (r : string) (n : nat) (sh : shape_t).

Lemma string_app_cons (a : ascii) (s1 s2 : string) :
  String a s1 +:+ s2 = String a (s1 +:+ s2).
Proof. done. Qed.

Lemma string_app_nil_l (s : string) : "" +:+ s = s.
Proof. done. Qed.

Lemma string_cons_inj (a : ascii) (s1 s2 : string) :
  String a s1 = String a s2 → s1 = s2.
Proof. by intros [=]. Qed.

Lemma string_app_assoc (s1 s2 s3 : string) :
  (s1 +:+ s2) +:+ s3 = s1 +:+ (s2 +:+ s3).
Proof.
  induction s1 as [|a s1 IH]; [done|].
  rewrite !string_app_cons. by f_equal.
Qed.

Lemma string_app_nil_r (s : string) : s +:+ "" = s.
Proof.
  induction s as [|a s IH]; [done|]. rewrite string_app_cons. by f_equal.
Qed.

Lemma string_of_uint_token d d' c c' r r' :
  is_digit c = false → is_digit c' = false →
  NilEmpty.string_of_uint d +:+ String c r
  = NilEmpty.string_of_uint d' +:+ String c' r' →
  d = d' ∧ c = c' ∧ r = r'.
Proof.
  intros Hc Hc'. revert d'.
  induction d as [|d IH|d IH|d IH|d IH|d IH|d IH|d IH|d IH|d IH|d IH];
    intros [|d'|d'|d'|d'|d'|d'|d'|d'|d'|d'] H;
    cbn [NilEmpty.string_of_uint] in H;
    rewrite ?string_app_cons, ?string_app_nil_l in H;
    try discriminate H;
    try (injection H as H; by destruct (IH _ H) as (-> & -> & ->));
    try (injection H as -> _; discriminate);
    try (injection H as <- _; discriminate).
  by injection H as -> ->.
Qed.

Lemma str_int_token n n' c c' r r' :
  is_digit c = false → is_digit c' = false →
  str_int n +:+ String c r = str_int n' +:+ String c' r' →
  n = n' ∧ c = c' ∧ r = r'.
Proof.
  intros Hc Hc' H.
  destruct (string_of_uint_token _ _ _ _ _ _ Hc Hc' H) as (Hn & -> & ->).
  by apply Unsigned.to_uint_inj in Hn as ->.
Qed.

Lemma join_cons2 n m sh :
  join ", " (str_int <$> n :: m :: sh)
  = str_int n +:+ ", " +:+ join ", " (str_int <$> m :: sh).
Proof. done. Qed.

Lemma join_token sh sh' r r' :
  sh ≠ [] → sh' ≠ [] →
  join ", " (str_int <$> sh) +:+ String ")" r
  = join ", " (str_int <$> sh') +:+ String ")" r' →
  sh = sh' ∧ r = r'.
Proof.
  revert sh'. induction sh as [|n [|m sh] IH]; [done| |];
    intros [|n' [|m' sh']] ? ? H; try done;
    rewrite ?join_cons2, ?string_app_assoc, ?string_app_cons,
      ?string_app_nil_l in H.
  - apply str_int_token in H as (-> & _ & ->); done.
  - apply str_int_token in H as (_ & [=] & _); done.
  - apply str_int_token in H as (_ & [=] & _); done.
  - apply str_int_token in H as (-> & _ & H); [|done..].
    assert (join ", " (str_int <$> m :: sh) +:+ String ")" r
            = join ", " (str_int <$> m' :: sh') +:+ String ")" r') as H'
      by (injection H as H; exact H).
    apply IH in H' as ([= -> ->] & ->); done.
Qed.

(** No printed shape is a proper prefix of another. *)
Lemma repr_tuple_token sh sh' r r' :
  repr_tuple sh +:+ r = repr_tuple sh' +:+ r' → sh = sh' ∧ r = r'.
Proof.
  assert (∀ r0, String ")" r0
                = NilEmpty.string_of_uint Decimal.Nil +:+ String ")" r0)
    as Hnil by done.
  destruct sh as [|n [|m sh]], sh' as [|n' [|m' sh']];
    unfold repr_tuple;
    rewrite ?join_cons2, ?string_app_assoc, ?string_app_cons,
      ?string_app_nil_l;
    intros H%string_cons_inj.
  - by apply string_cons_inj in H as ->.
  - rewrite Hnil in H.
    apply string_of_uint_token in H as (_ & [=] & _); done.
  - rewrite Hnil in H.
    apply string_of_uint_token in H as (_ & [=] & _); done.
  - rewrite (Hnil r') in H.
    apply string_of_uint_token in H as (_ & [=] & _); done.
  - apply str_int_token in H as (-> & _ & H); [|done..].
    by apply string_cons_inj in H as ->.
  - apply str_int_token in H as (_ & _ & [=]); done.
  - rewrite (Hnil r') in H.
    apply string_of_uint_token in H as (_ & [=] & _); done.
  - apply str_int_token in H as (_ & _ & [=]); done.
  - apply str_int_token in H as (-> & _ & H); [|done..].
    apply string_cons_inj in H.
    apply join_token in H as ([= -> ->] & ->); done.
Qed.

Lemma repr_tuple_inj sh sh' : repr_tuple sh = repr_tuple sh' → sh = sh'.
Proof.
  intros H. apply (repr_tuple_token sh sh' "" "").
  by rewrite !string_app_nil_r.
Qed.

(** The message of [create_masked_stipple] determines both shapes. *)
Lemma shape_error_inj sh1 sh2 sh1' sh2' :
  step5_create_masked.shape_error sh1 sh2
  = step5_create_masked.shape_error sh1' sh2' →
  sh1 = sh1' ∧ sh2 = sh2'.
Proof.
  unfold step5_create_masked.shape_error. intros [= H].
  apply repr_tuple_token in H as [-> H]. split; [done|].
  do 2 apply (inj (String.append _)) in H.
  by apply repr_tuple_inj.
Qed.
End repr.

(** ** Masked assignment on buffers *)
Section putmask.
Context {A : Type}.
Implicit Types (xs : list A) (mask : list bool) (v : A).

Lemma length_putmask xs mask v :
  length (np.putmask xs mask v) = length xs.
Proof.
  revert mask. induction xs as [|x xs IH]; intros [|b mask]; simpl; auto.
Qed.

Lemma lookup_putmask xs mask v i :
  np.putmask xs mask v !! i
  = (λ x, if default false (mask !! i) then v else x) <$> xs !! i.
Proof.
  revert mask i. induction xs as [|x xs IH]; intros [|b mask] i; simpl.
  - done.
  - done.
  - by destruct (_ !! i).
  - destruct i as [|i]; simpl; [done | apply IH].
Qed.

Lemma putmask_idemp xs mask v :
  np.putmask (np.putmask xs mask v) mask v = np.putmask xs mask v.
Proof.
  revert mask. induction xs as [|x xs IH]; intros [|b mask]; simpl; auto.
  rewrite IH. by destruct b.
Qed.

Lemma putmask_comm xs mask1 mask2 v :
  np.putmask (np.putmask xs mask1 v) mask2 v
  = np.putmask (np.putmask xs mask2 v) mask1 v.
Proof.
  revert mask1 mask2.
  induction xs as [|x xs IH]; intros [|b1 mask1] [|b2 mask2]; simpl; auto.
  rewrite IH. by destruct b1, b2.
Qed.

Lemma putmask_none xs mask v :
  Forall (λ b, b = false) mask → np.putmask xs mask v = xs.
Proof.
  intros Hm. revert xs.
  induction Hm as [|b mask -> _ IH]; intros [|x xs]; simpl; auto.
  by rewrite IH.
Qed.

Lemma putmask_all xs mask v :
  length xs ≤ length mask → Forall (λ b, b = true) mask →
  np.putmask xs mask v = replicate (length xs) v.
Proof.
  intros Hlen Hm. revert xs Hlen.
  induction Hm as [|b mask -> _ IH]; intros [|x xs]; simpl; auto; [lia|].
  intros ?. rewrite IH; [done | lia].
Qed.

Lemma putmask_Forall (P : A → Prop) xs mask v :
  P v → Forall P xs → Forall P (np.putmask xs mask v).
Proof.
  intros Hv Hxs. revert mask.
  induction Hxs as [|x xs Hx Hxs IH]; intros [|b mask]; simpl; auto.
  constructor; [by destruct b | apply IH].
Qed.
End putmask.

Lemma index_axes_same (sh : shape_t) : np.index_axes sh sh = Some [].
Proof.
  induction sh as [|n sh IH]; simpl; [done|]. by rewrite decide_True.
Qed.

Lemma bind_replicate_1 {A} (l : list A) : (x ← l; replicate 1 x) = l.
Proof. induction l as [|x l IH]; [done|]. cbn. by f_equal. Qed.

(** ** One call of [create_masked_stipple], symbolically *)
Section run.
Import py step5_create_masked.

Lemma setitem_mask_same_shape (S M : ndarray float64.t) t :
  shape S = shape M →
  np.setitem_mask S (np.less M t) float64.one = inr (masked S M t).
Proof.
  intros Hsh. unfold np.setitem_mask, np.less, masked; simpl.
  rewrite <- Hsh, index_axes_same.
  do 2 f_equal. f_equal. apply bind_replicate_1.
Qed.

Lemma fresh_unbound (σ : heap) : σ !! fresh (dom σ) = None.
Proof. apply not_elem_of_dom, is_fresh. Qed.

Lemma create_masked_stipple_run (σ : heap) s m S M t :
  σ !! s = Some S → σ !! m = Some M →
  create_masked_stipple s m t σ =
    if decide (shape S = shape M) then
      Some (Return (fresh (dom σ)), <[fresh (dom σ) := masked S M t]> σ)
    else Some (Raise (shape_error (shape S) (shape M)), σ).
Proof.
  intros Hs Hm.
  unfold create_masked_stipple, ndarray_ops.get_shape, bind, load, ret.
  rewrite Hs; simpl. rewrite Hm; simpl.
  destruct (decide (shape S = shape M)) as [Heq|Hne].
  - rewrite bool_decide_eq_false_2 by (intros ?; done).
    unfold ndarray_ops.copy, ndarray_ops.less, ndarray_ops.setitem_mask,
      bind, load, alloc, store, ret.
    rewrite Hs; simpl.
    assert (fresh (dom σ) ≠ m) as Hfresh.
    { intros <-. by rewrite fresh_unbound in Hm. }
    rewrite lookup_insert_ne, Hm by done; simpl.
    rewrite lookup_insert_eq; simpl.
    rewrite (setitem_mask_same_shape S M t Heq); simpl.
    rewrite lookup_insert_eq; simpl.
    by rewrite insert_insert_eq.
  - by rewrite bool_decide_eq_true_2.
Qed.
End run.

Section facts.
Import py step5_create_masked.

Lemma create_masked_stipple_ok (σ : heap) s m S M t :
  σ !! s = Some S → σ !! m = Some M → shape S = shape M →
  create_masked_stipple s m t σ
  = Some (Return (fresh (dom σ)), <[fresh (dom σ) := masked S M t]> σ).
Proof.
  intros Hs Hm Hsh.
  rewrite (create_masked_stipple_run σ s m S M t Hs Hm).
  by rewrite decide_True.
Qed.

Lemma masked_wf S M t : np.wf S → np.wf (masked S M t).
Proof. unfold np.wf, np.size; simpl. by rewrite length_putmask. Qed.

Lemma masked_lookup S M t i x y :
  data S !! i = Some x → data M !! i = Some y →
  data (masked S M t) !! i
  = Some (if float64.lt y t then float64.one else x).
Proof.
  intros Hx Hy. simpl.
  by rewrite lookup_putmask, Hx, list_lookup_fmap, Hy.
Qed.

Lemma lt_irrefl_of_eqb x y : float64.eqb x y = true → float64.lt x y = false.
Proof.
  unfold float64.eqb, float64.lt, SFeqb, SFltb.
  by destruct (SFcompare x y) as [[]|].
Qed.

Lemma item2_flat {A} (a : ndarray A) h w r c :
  shape a = [h; w] → r < h → c < w →
  np.item2 a r c = data a !! (r * w + c) ∧ r * w + c < np.size a.
Proof.
  intros Hsh Hr Hc. unfold np.item2, np.size. rewrite Hsh; simpl.
  rewrite decide_True by done. split; [done | nia].
Qed.
End facts.

(** ** Claims about [create_masked_stipple] *)
Section claims_step5.
Import py step5_create_masked.

(** C3.  Masking the result of a call again, with the same mask and
    threshold, yields an array equal to that result, pixel for pixel. *)
Theorem create_masked_stipple_idempotent (σ : heap) s m S M t :
  σ !! s = Some S → σ !! m = Some M → shape S = shape M →
  ∃ r1 σ1 r2 σ2 R,
    create_masked_stipple s m t σ = Some (Return r1, σ1)
    ∧ create_masked_stipple r1 m t σ1 = Some (Return r2, σ2)
    ∧ σ1 !! r1 = Some R ∧ σ2 !! r2 = Some R ∧ σ2 !! r1 = Some R.
Proof.
  intros Hs Hm Hsh.
  set (r1 := fresh (dom σ)).
  set (σ1 := <[r1 := masked S M t]> σ).
  assert (σ1 !! r1 = Some (masked S M t)) as Hr1
    by apply lookup_insert_eq.
  assert (σ1 !! m = Some M) as Hm1.
  { unfold σ1. rewrite lookup_insert_ne; [done|].
    intros Heq. unfold r1 in Heq. rewrite <- Heq in Hm.
    by rewrite fresh_unbound in Hm. }
  assert (masked (masked S M t) M t = masked S M t) as Hidem.
  { unfold masked; simpl. by rewrite putmask_idemp. }
  exists r1, σ1, (fresh (dom σ1)),
    (<[fresh (dom σ1) := masked (masked S M t) M t]> σ1), (masked S M t).
  split_and!.
  - by apply create_masked_stipple_ok.
  - by apply create_masked_stipple_ok.
  - done.
  - by rewrite lookup_insert_eq, Hidem.
  - rewrite lookup_insert_ne; [done|].
    intros Heq. rewrite <- Heq in Hr1. by rewrite fresh_unbound in Hr1.
Qed.

Lemma create_masked_stipple_idempotent_witness :
  let σ := examples.heap0 in
  (σ !! 1%positive = Some examples.stipple
   ∧ σ !! 2%positive = Some examples.mask)
  ∧ ∃ r1 σ1 r2 σ2 R,
    create_masked_stipple 1 2 examples.half σ = Some (Return r1, σ1)
    ∧ create_masked_stipple r1 2 examples.half σ1 = Some (Return r2, σ2)
    ∧ σ1 !! r1 = Some R ∧ σ2 !! r2 = Some R ∧ σ2 !! r1 = Some R.
Proof.
  split; [by vm_compute|].
  apply (create_masked_stipple_idempotent examples.heap0 1 2
           examples.stipple examples.mask examples.half); reflexivity.
Defined.

(** C4.  With threshold 0 and a mask whose elements are all [>= 0], the
    returned array equals the stipple image: nothing is erased. *)
Theorem create_masked_stipple_threshold_zero (σ : heap) s m S M :
  σ !! s = Some S → σ !! m = Some M → shape S = shape M →
  Forall (λ y, float64.ge y float64.zero = true) (data M) →
  ∃ r σ',
    create_masked_stipple s m float64.zero σ = Some (Return r, σ')
    ∧ σ' !! r = Some S.
Proof.
  intros Hs Hm Hsh Hge.
  exists (fresh (dom σ)), (<[fresh (dom σ) := masked S M float64.zero]> σ).
  split; [by apply create_masked_stipple_ok|].
  rewrite lookup_insert_eq. f_equal.
  unfold masked. rewrite putmask_none; [by destruct S|].
  apply Forall_fmap. eapply Forall_impl; [exact Hge|].
  intros y. unfold float64.ge, float64.lt, float64.zero, SFltb; simpl.
  by destruct y as [| [] | | [] ? ?].
Qed.

Lemma create_masked_stipple_threshold_zero_witness :
  let σ := examples.heap0 in
  (σ !! 1%positive = Some examples.stipple
   ∧ σ !! 2%positive = Some examples.mask
   ∧ Forall (λ y, float64.ge y float64.zero = true) (data examples.mask))
  ∧ ∃ r σ',
    create_masked_stipple 1 2 float64.zero σ = Some (Return r, σ')
    ∧ σ' !! r = Some examples.stipple.
Proof.
  assert (Forall (λ y, float64.ge y float64.zero = true)
            (data examples.mask)) as Hge
    by (repeat constructor).
  split; [by split_and!|].
  apply (create_masked_stipple_threshold_zero examples.heap0 1 2
           examples.stipple examples.mask);
    [reflexivity | reflexivity | reflexivity | exact Hge].
Defined.
(** C5.  With threshold 1 a pixel is erased to [1.0] exactly when its mask
    value is below [1.0], and kept when the mask value equals [1.0]; with
    an all-zeros mask every pixel of the result is [1.0]. *)
Theorem create_masked_stipple_threshold_one (σ : heap) s m S M :
  σ !! s = Some S → σ !! m = Some M → shape S = shape M →
  np.wf S → np.wf M →
  ∃ r σ' R,
    create_masked_stipple s m float64.one σ = Some (Return r, σ')
    ∧ σ' !! r = Some R
    ∧ shape R = shape S ∧ np.wf R
    ∧ (∀ i, i < np.size S → ∃ x y,
          data S !! i = Some x ∧ data M !! i = Some y
          ∧ (float64.lt y float64.one = true
             → data R !! i = Some float64.one)
          ∧ (float64.lt y float64.one = false → data R !! i = Some x)
          ∧ (float64.eqb y float64.one = true → data R !! i = Some x))
    ∧ (Forall (λ y, float64.eqb y float64.zero = true) (data M)
       → data R = replicate (np.size S) float64.one).
Proof.
  intros Hs Hm Hsh HwS HwM.
  exists (fresh (dom σ)), (<[fresh (dom σ) := masked S M float64.one]> σ),
    (masked S M float64.one).
  split_and!.
  - by apply create_masked_stipple_ok.
  - by rewrite lookup_insert_eq.
  - done.
  - by apply masked_wf.
  - intros i Hi.
    destruct (lookup_lt_is_Some_2 (data S) i) as [x Hx];
      [by rewrite HwS|].
    destruct (lookup_lt_is_Some_2 (data M) i) as [y Hy].
    { rewrite HwM. unfold np.size. by rewrite <- Hsh. }
    exists x, y.
    rewrite (masked_lookup S M float64.one i x y Hx Hy).
    split_and!; try done.
    + by intros ->.
    + by intros ->.
    + intros Heq. by rewrite (lt_irrefl_of_eqb _ _ Heq).
  - intros Hzero. unfold masked; simpl.
    rewrite putmask_all.
    + by rewrite HwS.
    + rewrite length_fmap, HwS, HwM. unfold np.size. by rewrite Hsh.
    + apply Forall_fmap. eapply Forall_impl; [exact Hzero|].
      intros y. unfold float64.eqb, float64.lt, SFeqb, SFltb; simpl.
      by destruct y as [| [] | | [] ? ?].
Qed.

Lemma create_masked_stipple_threshold_one_witness :
  let σ := examples.heap0 in
  (σ !! 1%positive = Some examples.stipple
   ∧ σ !! 5%positive = Some (np.zeros [2; 2]))
  ∧ ∃ r σ' R,
    create_masked_stipple 1 5 float64.one σ = Some (Return r, σ')
    ∧ σ' !! r = Some R
    ∧ data R = [float64.one; float64.one; float64.one; float64.one].
Proof.
  split; [by vm_compute|].
  destruct (create_masked_stipple_threshold_one examples.heap0 1 5
              examples.stipple (np.zeros [2; 2]))
    as (r & σ' & R & Hrun & Hr & _ & _ & _ & Hall);
    [reflexivity | reflexivity | reflexivity | reflexivity | reflexivity |].
  exists r, σ', R. split_and!; [done | done |].
  apply Hall. repeat constructor.
Defined.

(** C6.  A successful call leaves both arguments, and every other array
    that existed before it, exactly as they were; the reference returned
    is to a newly allocated array, distinct from both arguments. *)
Theorem create_masked_stipple_no_mutation (σ : heap) s m S M t :
  σ !! s = Some S → σ !! m = Some M → shape S = shape M →
  ∃ r σ',
    create_masked_stipple s m t σ = Some (Return r, σ')
    ∧ σ' !! s = Some S ∧ σ' !! m = Some M
    ∧ σ !! r = None ∧ r ≠ s ∧ r ≠ m
    ∧ (∀ k, k ≠ r → σ' !! k = σ !! k).
Proof.
  intros Hs Hm Hsh.
  set (r := fresh (dom σ)).
  assert (σ !! r = None) as Hr by apply fresh_unbound.
  assert (r ≠ s) as Hrs by (intros Heq; by rewrite Heq, Hs in Hr).
  assert (r ≠ m) as Hrm by (intros Heq; by rewrite Heq, Hm in Hr).
  exists r, (<[r := masked S M t]> σ).
  split_and!; try done.
  - by apply create_masked_stipple_ok.
  - by rewrite lookup_insert_ne.
  - by rewrite lookup_insert_ne.
  - intros k Hk. by rewrite lookup_insert_ne.
Qed.

Lemma create_masked_stipple_no_mutation_witness :
  let σ := examples.heap0 in
  (σ !! 1%positive = Some examples.stipple
   ∧ σ !! 2%positive = Some examples.mask)
  ∧ ∃ r σ',
    create_masked_stipple 1 2 examples.half σ = Some (Return r, σ')
    ∧ σ' !! 1%positive = Some examples.stipple
    ∧ σ' !! 2%positive = Some examples.mask
    ∧ σ !! r = None ∧ r ≠ 1%positive ∧ r ≠ 2%positive
    ∧ (∀ k, k ≠ r → σ' !! k = σ !! k).
Proof.
  split; [by vm_compute|].
  apply (create_masked_stipple_no_mutation examples.heap0 1 2
           examples.stipple examples.mask examples.half); reflexivity.
Defined.

(** C9.  If every element of the stipple image lies in [[0, 1]], so does
    every element of the returned array. *)
Theorem create_masked_stipple_in_unit (σ : heap) s m S M t :
  σ !! s = Some S → σ !! m = Some M → shape S = shape M →
  Forall (λ x, float64.in_unit x = true) (data S) →
  ∃ r σ' R,
    create_masked_stipple s m t σ = Some (Return r, σ')
    ∧ σ' !! r = Some R
    ∧ Forall (λ x, float64.in_unit x = true) (data R).
Proof.
  intros Hs Hm Hsh Hunit.
  exists (fresh (dom σ)), (<[fresh (dom σ) := masked S M t]> σ),
    (masked S M t).
  split_and!.
  - by apply create_masked_stipple_ok.
  - by rewrite lookup_insert_eq.
  - unfold masked; simpl. by apply putmask_Forall.
Qed.

Lemma create_masked_stipple_in_unit_witness :
  let σ := examples.heap0 in
  (σ !! 1%positive = Some examples.stipple
   ∧ σ !! 2%positive = Some examples.mask
   ∧ Forall (λ x, float64.in_unit x = true) (data examples.stipple))
  ∧ ∃ r σ' R,
    create_masked_stipple 1 2 examples.half σ = Some (Return r, σ')
    ∧ σ' !! r = Some R
    ∧ Forall (λ x, float64.in_unit x = true) (data R).
Proof.
  assert (Forall (λ x, float64.in_unit x = true) (data examples.stipple))
    as Hunit by (repeat constructor).
  split; [by split_and!|].
  apply (create_masked_stipple_in_unit examples.heap0 1 2
           examples.stipple examples.mask examples.half);
    [reflexivity | reflexivity | reflexivity | exact Hunit].
Defined.

(** C10.  Applying two masks one after the other gives the same array in
    either order. *)
Theorem create_masked_stipple_commute (σ : heap) s m1 m2 S M1 M2 t :
  σ !! s = Some S → σ !! m1 = Some M1 → σ !! m2 = Some M2 →
  shape S = shape M1 → shape S = shape M2 →
  ∃ r1 σ1 r12 σ12 r2 σ2 r21 σ21 R,
    create_masked_stipple s m1 t σ = Some (Return r1, σ1)
    ∧ create_masked_stipple r1 m2 t σ1 = Some (Return r12, σ12)
    ∧ create_masked_stipple s m2 t σ = Some (Return r2, σ2)
    ∧ create_masked_stipple r2 m1 t σ2 = Some (Return r21, σ21)
    ∧ σ12 !! r12 = Some R ∧ σ21 !! r21 = Some R.
Proof.
  intros Hs Hm1 Hm2 Hsh1 Hsh2.
  set (r := fresh (dom σ)).
  assert (σ !! r = None) as Hr by apply fresh_unbound.
  assert (r ≠ m1) as Hrm1 by (intros Heq; by rewrite Heq, Hm1 in Hr).
  assert (r ≠ m2) as Hrm2 by (intros Heq; by rewrite Heq, Hm2 in Hr).
  set (σ1 := <[r := masked S M1 t]> σ).
  set (σ2 := <[r := masked S M2 t]> σ).
  exists r, σ1, (fresh (dom σ1)),
    (<[fresh (dom σ1) := masked (masked S M1 t) M2 t]> σ1),
    r, σ2, (fresh (dom σ2)),
    (<[fresh (dom σ2) := masked (masked S M2 t) M1 t]> σ2),
    (masked (masked S M1 t) M2 t).
  split_and!.
  - by apply create_masked_stipple_ok.
  - apply create_masked_stipple_ok; unfold σ1.
    + apply lookup_insert_eq.
    + by rewrite lookup_insert_ne.
    + done.
  - by apply create_masked_stipple_ok.
  - apply create_masked_stipple_ok; unfold σ2.
    + apply lookup_insert_eq.
    + by rewrite lookup_insert_ne.
    + done.
  - by rewrite lookup_insert_eq.
  - rewrite lookup_insert_eq. f_equal.
    unfold masked; simpl. by rewrite putmask_comm.
Qed.

Lemma create_masked_stipple_commute_witness :
  let σ := examples.heap0 in
  (σ !! 1%positive = Some examples.stipple
   ∧ σ !! 2%positive = Some examples.mask
   ∧ σ !! 3%positive = Some examples.mask')
  ∧ ∃ r1 σ1 r12 σ12 r2 σ2 r21 σ21 R,
    create_masked_stipple 1 2 examples.half σ = Some (Return r1, σ1)
    ∧ create_masked_stipple r1 3 examples.half σ1 = Some (Return r12, σ12)
    ∧ create_masked_stipple 1 3 examples.half σ = Some (Return r2, σ2)
    ∧ create_masked_stipple r2 2 examples.half σ2 = Some (Return r21, σ21)
    ∧ σ12 !! r12 = Some R ∧ σ21 !! r21 = Some R.
Proof.
  split; [by vm_compute|].
  apply (create_masked_stipple_commute examples.heap0 1 2 3
           examples.stipple examples.mask examples.mask' examples.half);
    reflexivity.
Defined.
(** C2.  The call raises exactly when the two shapes differ.  It then
    raises the [ValueError] whose message prints the shape of the stipple
    image and the shape of the mask, from which both shapes can be read
    back, and it leaves the heap as it found it: nothing was copied,
    allocated or written. *)
Theorem create_masked_stipple_shape_mismatch (σ : heap) s m S M t :
  σ !! s = Some S → σ !! m = Some M →
  (shape S ≠ shape M
   ↔ ∃ e σ', create_masked_stipple s m t σ = Some (Raise e, σ'))
  ∧ (shape S ≠ shape M →
     create_masked_stipple s m t σ
     = Some (Raise (shape_error (shape S) (shape M)), σ)
     ∧ ∀ sh1 sh2,
         shape_error sh1 sh2 = shape_error (shape S) (shape M) →
         sh1 = shape S ∧ sh2 = shape M).
Proof.
  intros Hs Hm.
  pose proof (create_masked_stipple_run σ s m S M t Hs Hm) as Hrun.
  destruct (decide (shape S = shape M)) as [Heq|Hne].
  - split; [|done]. split; [done|].
    intros (e & σ' & He). by rewrite Hrun in He.
  - split; [split; [by eauto | done]|].
    intros _. split; [done|]. intros sh1 sh2. apply shape_error_inj.
Qed.

Lemma create_masked_stipple_shape_mismatch_witness :
  let σ := examples.heap0 in
  (σ !! 1%positive = Some examples.stipple
   ∧ σ !! 4%positive = Some examples.wide_mask)
  ∧ create_masked_stipple 1 4 examples.half σ
    = Some (Raise (ValueError
        ("Input images must have the same shape. "
         +:+ "stipple_img shape: (2, 2), mask_img shape: (2, 3)")), σ).
Proof.
  split; [by vm_compute|].
  destruct (create_masked_stipple_shape_mismatch examples.heap0 1 4
              examples.stipple examples.wide_mask examples.half)
    as [_ Hraise]; [reflexivity | reflexivity |].
  destruct Hraise as [Hrun _]; [by vm_compute|].
  exact Hrun.
Defined.
End claims_step5.


(** ** Claims about [create_statistics_meme] *)
Section claims_create_meme.
Import create_meme.

Lemma check_images_cons name img images h w :
  check_images ((name, img) :: images) h w
  = if decide (shape img = [h; w]) then check_images images h w
    else inl (dimension_error name (shape img) h w).
Proof.
  simpl. destruct (decide (shape img = [h; w])) as [Heq|Hne].
  - by rewrite bool_decide_eq_false_2 by (intros ?; done).
  - by rewrite bool_decide_eq_true_2.
Qed.

(** C7, as stated, fails when the odd-shaped image is the first argument:
    with a (50, 51) image followed by three (50, 50) images the error
    names [stipple_img], whose shape is the common one, and no error
    naming [original_img] is raised. *)
Lemma create_statistics_meme_first_odd_counterexample :
  let odd := examples.img 50 51 in
  let img := examples.img 50 50 in
  create_statistics_meme odd img img img
  = inl (dimension_error "stipple_img" [50; 50] 50 51)
  ∧ ∀ sh h w,
      create_statistics_meme odd img img img
      ≠ inl (dimension_error "original_img" sh h w).
Proof.
  split; [done|].
  intros sh h w H. discriminate H.
Qed.

(** C7, amended.  The expected shape is that of the first image, and the
    error names the first later image that departs from it.  So an
    odd-shaped second, third or fourth image is named and its shape
    reported against the shape of the first image; an odd-shaped first
    image makes the call name [stipple_img] and report the common shape
    against the shape of the first image. *)
Theorem create_statistics_meme_odd_image
    (a b c d : ndarray float64.t) (h w : nat) (sh : shape_t) :
  sh ≠ [h; w] →
  (shape a = [h; w] → shape b = sh → shape c = [h; w] → shape d = [h; w] →
   create_statistics_meme a b c d
   = inl (dimension_error "stipple_img" sh h w))
  ∧ (shape a = [h; w] → shape b = [h; w] → shape c = sh → shape d = [h; w] →
     create_statistics_meme a b c d
     = inl (dimension_error "block_letter_img" sh h w))
  ∧ (shape a = [h; w] → shape b = [h; w] → shape c = [h; w] → shape d = sh →
     create_statistics_meme a b c d
     = inl (dimension_error "masked_stipple_img" sh h w))
  ∧ (shape a = [h; w] → shape b = sh → shape c = sh → shape d = sh →
     create_statistics_meme a b c d
     = inl (dimension_error "stipple_img" sh h w)).
Proof.
  intros Hne.
  split_and!; intros Ha Hb Hc Hd; unfold create_statistics_meme;
    rewrite Ha, !check_images_cons, Ha, Hb, ?Hc, ?Hd;
    rewrite ?decide_True by done; by rewrite decide_False by done.
Qed.

Lemma create_statistics_meme_odd_image_witness :
  let img := examples.img 50 50 in
  let odd := examples.img 50 51 in
  create_statistics_meme img odd img img
  = inl (ValueError ("All images must have the same dimensions. "
           +:+ "stipple_img has shape (50, 51), expected (50, 50)"))
  ∧ create_statistics_meme img img odd img
    = inl (ValueError ("All images must have the same dimensions. "
             +:+ "block_letter_img has shape (50, 51), expected (50, 50)"))
  ∧ create_statistics_meme img img img odd
    = inl (ValueError ("All images must have the same dimensions. "
             +:+ "masked_stipple_img has shape (50, 51), expected (50, 50)"))
  ∧ create_statistics_meme odd img img img
    = inl (ValueError ("All images must have the same dimensions. "
             +:+ "stipple_img has shape (50, 50), expected (50, 51)")).
Proof.
  intros img odd.
  destruct (create_statistics_meme_odd_image img odd img img 50 50 [50; 51])
    as (H2 & _); [done|].
  destruct (create_statistics_meme_odd_image img img odd img 50 50 [50; 51])
    as (_ & H3 & _); [done|].
  destruct (create_statistics_meme_odd_image img img img odd 50 50 [50; 51])
    as (_ & _ & H4 & _); [done|].
  destruct (create_statistics_meme_odd_image odd img img img 50 51 [50; 50])
    as (_ & _ & _ & H1); [done|].
  split_and!.
  - exact (H2 eq_refl eq_refl eq_refl eq_refl).
  - exact (H3 eq_refl eq_refl eq_refl eq_refl).
  - exact (H4 eq_refl eq_refl eq_refl eq_refl).
  - exact (H1 eq_refl eq_refl eq_refl eq_refl).
Defined.
End claims_create_meme.


(** * Further properties *)

(** ** The added definitions on concrete inputs *)

Example endswith_examples :
  step4_create_block_letter.endswith "/System/Library/Fonts/Helvetica.ttc"
    ".ttc" = true
  ∧ step4_create_block_letter.endswith "C:/Windows/Fonts/impact.ttf" ".ttc"
    = false
  ∧ step4_create_block_letter.endswith "ttc" ".ttc" = false.
Proof. vm_compute. done. Qed.

Example float32_constants :
  float32.of_uint8 Byte.xff = float32.c255
  ∧ float32.of_uint8 Byte.x01 = float32.one
  ∧ step4_create_block_letter.normalize Byte.x00 = float32.zero
  ∧ step4_create_block_letter.normalize Byte.xff = float32.one
  ∧ step4_create_block_letter.normalize Byte.x80
    = S754_finite false 8421505 (-24).
Proof. vm_compute. done. Qed.

Example text_position_examples :
  step4_create_block_letter.text_position 100 100 (3, 21, 63, 100)%Z
  = (17, -11)%Z
  ∧ step4_create_block_letter.text_position 10 10 (0, 0, 13, 4)%Z
    = (-2, 3)%Z.
Proof. vm_compute. done. Qed.

Example stroke_offsets_count :
  length (step4_create_block_letter.stroke_offsets 2) = 13
  ∧ length (step4_create_block_letter.stroke_offsets 3) = 29
  ∧ step4_create_block_letter.stroke_offsets 0 = [(0, 0)%Z].
Proof. vm_compute. done. Qed.

Example int64_wraps :
  step5_dtype.int64 (2 ^ 63) = (- 2 ^ 63)%Z
  ∧ step5_dtype.int64 (-1) = (-1)%Z.
Proof. vm_compute. done. Qed.

Example casts :
  dtypes.cast dtypes.F32 float64.one = float32.one
  ∧ dtypes.cast dtypes.F64 float64.one = float64.one
  ∧ dtypes.cast dtypes.F32 float64.zero = float64.zero
  ∧ dtypes.cast dtypes.F32 examples.half = examples3.half_f
  ∧ dtypes.cast dtypes.F32 examples3.c0_7 = examples3.c0_7f
  ∧ dtypes.widen examples3.c0_7f = S754_finite false 6305039370944512 (-53)
  ∧ dtypes.cast dtypes.F32 (S754_finite false 4503599627370496 200)
    = S754_infinity false.
Proof. vm_compute. done. Qed.

(** [0.7] is the binary64 nearest to 7/10. *)
Example c0_7_is_correctly_rounded :
  SFdiv float64.prec float64.emax
    (step5_dtype.float_of_int 7) (step5_dtype.float_of_int 10)
  = examples3.c0_7.
Proof. vm_compute. reflexivity. Qed.

Example percentage_examples :
  step5_dtype.percentage 2 4 = step5_dtype.float_of_int 50
  ∧ step5_dtype.percentage 0 0 = S754_nan.
Proof. vm_compute. done. Qed.

(** At threshold 0.7 the [float32] mask pixels 0 and 0.5 erase, and the
    pixels 1 and [float32(0.7)] keep. *)
Example create_masked_stipple_typed_runs :
  step5_dtype.create_masked_stipple 1 2 examples3.c0_7 examples3.heap0
  = Some (py.Return
            (3%positive,
             step5_dtype.Report 4 2 (step5_dtype.float_of_int 50) 2 1 1),
          <[3%positive :=
              dtypes.TArray dtypes.F64
                (NDArray [2; 2] [float64.one; float64.one;
                                 float64.zero; examples.half])]>
            examples3.heap0).
Proof. vm_compute. reflexivity. Qed.

(** ** [create_masked_stipple] on arrays of either float type *)
Section typed.
Import dtypes pyt step5_dtype.

Lemma int64_small (z : Z) : (- 2 ^ 63 ≤ z < 2 ^ 63)%Z → int64 z = z.
Proof. intros Hz. unfold int64. rewrite Z.mod_small; lia. Qed.

Lemma count_true_bounds (l : list bool) :
  (0 ≤ count_true l ≤ Z.of_nat (length l))%Z.
Proof. induction l as [|[] l IH]; simpl; unfold Z.b2z; lia. Qed.

Lemma foldr_int64_count (l : list bool) :
  (Z.of_nat (length l) < 2 ^ 63)%Z →
  foldr (λ x acc, int64 (Z.b2z x + acc)) 0%Z l = count_true l.
Proof.
  induction l as [|b l IH]; simpl; [done|]. intros Hlen.
  rewrite IH by lia. apply int64_small.
  pose proof (count_true_bounds l). destruct b; unfold Z.b2z; lia.
Qed.

Lemma sum_count (b : ndarray bool) :
  (Z.of_nat (length (data b)) < 2 ^ 63)%Z → sum b = count_true (data b).
Proof. apply foldr_int64_count. Qed.

Lemma count_true_0 (l : list bool) :
  count_true l = 0%Z → Forall (λ b, b = false) l.
Proof.
  induction l as [|b l IH]; simpl; [constructor|]. intros H.
  pose proof (count_true_bounds l).
  destruct b; unfold Z.b2z in H; [lia|]. constructor; [done|]. apply IH. lia.
Qed.

Lemma count_true_all (l : list bool) :
  count_true l = Z.of_nat (length l) → Forall (λ b, b = true) l.
Proof.
  induction l as [|b l IH]; simpl; [constructor|]. intros H.
  pose proof (count_true_bounds l).
  destruct b; unfold Z.b2z in H; [|lia]. constructor; [done|]. apply IH. lia.
Qed.

(** Dots before, dots left, and dots erased, pixel by pixel. *)
Lemma count_dots_split {A B} (dot : A → bool) (below : B → bool) (v : A)
    (xs : list A) (ys : list B) :
  dot v = false → length xs = length ys →
  count_true (dot <$> np.putmask xs (below <$> ys) v)
  = count_true (zip_with (λ x y, dot x && negb (below y)) xs ys)
  ∧ count_true (dot <$> xs)
    = (count_true (zip_with (λ x y, dot x && negb (below y)) xs ys)
       + count_true (zip_with (λ x y, dot x && below y) xs ys))%Z
  ∧ (count_true (zip_with (λ x y, dot x && below y) xs ys)
     ≤ count_true (below <$> ys))%Z.
Proof.
  intros Hv. revert ys. induction xs as [|x xs IH]; intros [|y ys] Hlen;
    simplify_eq/=; [done|].
  destruct (IH ys Hlen) as (IH1 & IH2 & IH3).
  rewrite IH1, IH2.
  destruct (below y), (dot x); rewrite ?Hv;
    simpl; unfold Z.b2z; split_and!; try lia.
Qed.

Lemma cast_zero (d : dtype) : cast d float64.zero = float64.zero.
Proof. by destruct d. Qed.

Lemma cast_one_not_zero (d : dtype) :
  SFeqb (cast d float64.one) float64.zero = false.
Proof. by destruct d. Qed.

Lemma float_lt_of_eqb (x y : spec_float) :
  SFeqb x y = true → SFltb x y = false.
Proof. unfold SFeqb, SFltb. by destruct (SFcompare x y) as [[]|]. Qed.

Lemma fresh_unbound_t (σ : heap) : σ !! fresh (dom σ) = None.
Proof. apply not_elem_of_dom, is_fresh. Qed.

Lemma setitem_mask_same_shape_t (S M : tarray) t :
  shape (values S) = shape (values M) →
  setitem_mask S (less M t) float64.one = inr (masked_t S M t).
Proof.
  intros Hsh. unfold setitem_mask, np.setitem_mask, less, masked_t.
  cbn [shape data]. rewrite <- Hsh, index_axes_same.
  do 3 f_equal. f_equal. apply bind_replicate_1.
Qed.

Lemma create_masked_stipple_typed_run (σ : heap) s m S M t :
  σ !! s = Some S → σ !! m = Some M →
  create_masked_stipple s m t σ =
    if decide (shape (values S) = shape (values M)) then
      let total := Z.of_nat (np.size (values S)) in
      let area := sum (less M t) in
      let sum_S := sum (equal S float64.zero) in
      let sum_R := sum (equal (masked_t S M t) float64.zero) in
      Some (py.Return (fresh (dom σ),
                       Report total area (percentage area total)
                         sum_S sum_R (int64 (sum_S - sum_R))),
            <[fresh (dom σ) := masked_t S M t]> σ)
    else Some (py.Raise (step5_create_masked.shape_error
                           (shape (values S)) (shape (values M))), σ).
Proof.
  intros Hs Hm.
  unfold create_masked_stipple, get_shape, bind, load, ret.
  rewrite Hs; simpl. rewrite Hm; simpl.
  destruct (decide (shape (values S) = shape (values M))) as [Heq|Hne].
  - rewrite bool_decide_eq_false_2 by (intros ?; done).
    unfold copy, less_ref, setitem_mask_ref, get_size, equal_ref,
      bind, load, alloc, store, ret.
    rewrite Hs; simpl.
    assert (fresh (dom σ) ≠ m) as Hfm.
    { intros <-. by rewrite fresh_unbound_t in Hm. }
    assert (fresh (dom σ) ≠ s) as Hfs.
    { intros <-. by rewrite fresh_unbound_t in Hs. }
    rewrite lookup_insert_ne, Hm by done; simpl.
    rewrite lookup_insert_eq; simpl.
    rewrite (setitem_mask_same_shape_t S M t Heq); simpl.
    rewrite lookup_insert_eq; simpl.
    rewrite insert_insert_eq.
    rewrite lookup_insert_ne, Hs by done; simpl.
    rewrite lookup_insert_ne, Hs by done; simpl.
    by rewrite lookup_insert_eq.
  - by rewrite bool_decide_eq_true_2.
Qed.
(** C1, as stated, fails for a [float32] mask: the mask pixel
    [float32(0.7)] is, as a number, below the threshold 0.7, yet the
    comparison is made in [float32], where the threshold rounds to that
    same value; the stipple dot under it is kept, not set to [1.0]. *)
Lemma create_masked_stipple_float32_mask_counterexample :
  float64.lt (widen examples3.c0_7f) examples3.c0_7 = true
  ∧ examples3.heap1 !! 1%positive
    = Some (TArray F64 (NDArray [1; 1] [float64.zero]))
  ∧ examples3.heap1 !! 2%positive
    = Some (TArray F32 (NDArray [1; 1] [examples3.c0_7f]))
  ∧ (∃ rep,
       create_masked_stipple 1 2 examples3.c0_7 examples3.heap1
       = Some (py.Return (3%positive, rep),
               <[3%positive := TArray F64 (NDArray [1; 1] [float64.zero])]>
                 examples3.heap1))
  ∧ float64.zero ≠ float64.one.
Proof.
  split_and!; [by vm_compute | by vm_compute | by vm_compute | | done].
  eexists. vm_compute. reflexivity.
Qed.

(** C1, amended.  For same-shaped images of either float type the call
    returns an array of the shape and dtype of the stipple image in which
    a pixel is exactly [1.0] where the mask pixel is below the threshold
    and exactly the stipple pixel elsewhere, the comparison being the one
    NumPy makes: in the dtype of the mask, with the threshold rounded to
    it (not rounded at all for a [float64] mask).  A mask pixel equal to
    that threshold keeps the stipple pixel.  Pixels are addressed by
    row-major offset (any rank) and, for images, by row and column. *)
Theorem create_masked_stipple_pixels_in_mask_dtype
    (σ : heap) s m (S M : tarray) t :
  σ !! s = Some S → σ !! m = Some M →
  shape (values S) = shape (values M) →
  np.wf (values S) → np.wf (values M) →
  let threshold := cast (dt M) t in
  let white := cast (dt S) float64.one in
  ∃ r rep σ' R,
    create_masked_stipple s m t σ = Some (py.Return (r, rep), σ')
    ∧ σ' !! r = Some R
    ∧ dt R = dt S
    ∧ shape (values R) = shape (values S) ∧ np.wf (values R)
    ∧ (∀ i, i < np.size (values S) → ∃ x y,
          data (values S) !! i = Some x ∧ data (values M) !! i = Some y
          ∧ data (values R) !! i
            = Some (if SFltb y threshold then white else x)
          ∧ (SFeqb y threshold = true → data (values R) !! i = Some x))
    ∧ (∀ h w row col, shape (values S) = [h; w] → row < h → col < w →
        ∃ x y,
          np.item2 (values S) row col = Some x
          ∧ np.item2 (values M) row col = Some y
          ∧ np.item2 (values R) row col
            = Some (if SFltb y threshold then white else x)
          ∧ (SFeqb y threshold = true →
             np.item2 (values R) row col = Some x))
    ∧ (dt M = F64 → threshold = t)
    ∧ (dt S = F64 → white = float64.one)
    ∧ (dt S = F32 → white = float32.one).
Proof.
  intros Hs Hm Hsh HwS HwM threshold white.
  assert (∀ i, i < np.size (values S) → ∃ x y,
    data (values S) !! i = Some x ∧ data (values M) !! i = Some y
    ∧ data (values (masked_t S M t)) !! i
      = Some (if SFltb y threshold then white else x)
    ∧ (SFeqb y threshold = true →
       data (values (masked_t S M t)) !! i = Some x))
    as Hflat.
  { intros i Hi.
    destruct (lookup_lt_is_Some_2 (data (values S)) i) as [x Hx];
      [by rewrite HwS|].
    destruct (lookup_lt_is_Some_2 (data (values M)) i) as [y Hy].
    { rewrite HwM. unfold np.size. by rewrite <- Hsh. }
    exists x, y.
    assert (data (values (masked_t S M t)) !! i
            = Some (if SFltb y threshold then white else x)) as HR.
    { unfold masked_t; cbn [values data].
      by rewrite lookup_putmask, Hx, list_lookup_fmap, Hy. }
    split_and!; try done.
    intros Heq. by rewrite HR, (float_lt_of_eqb _ _ Heq). }
  rewrite (create_masked_stipple_typed_run σ s m S M t Hs Hm).
  rewrite decide_True by done. cbv zeta.
  eexists _, _, _, (masked_t S M t). split_and!.
  - done.
  - by rewrite lookup_insert_eq.
  - done.
  - done.
  - unfold np.wf, np.size, masked_t; cbn [values shape data].
    by rewrite length_putmask.
  - done.
  - intros h w row col Hhw Hrow Hcol.
    destruct (item2_flat (values S) h w row col Hhw Hrow Hcol) as [-> Hlt].
    rewrite Hsh in Hhw.
    destruct (item2_flat (values M) h w row col Hhw Hrow Hcol) as [-> _].
    rewrite <- Hsh in Hhw.
    destruct (item2_flat (values (masked_t S M t)) h w row col Hhw Hrow Hcol)
      as [-> _].
    by apply Hflat.
  - unfold threshold. by intros ->.
  - unfold white. by intros ->.
  - unfold white. by intros ->.
Qed.

Lemma create_masked_stipple_pixels_in_mask_dtype_witness :
  let σ := examples3.heap0 in
  (σ !! 1%positive = Some examples3.stipple
   ∧ σ !! 2%positive = Some examples3.mask)
  ∧ ∃ r rep σ' R,
    create_masked_stipple 1 2 examples3.c0_7 σ
    = Some (py.Return (r, rep), σ')
    ∧ σ' !! r = Some R
    ∧ dt R = F64
    ∧ shape (values R) = [2; 2]
    ∧ np.item2 (values R) 0 0 = Some float64.one
    ∧ np.item2 (values R) 0 1 = Some float64.one
    ∧ np.item2 (values R) 1 0 = Some float64.zero
    ∧ np.item2 (values R) 1 1 = Some examples.half.
Proof.
  split; [by vm_compute|].
  destruct (create_masked_stipple_pixels_in_mask_dtype examples3.heap0 1 2
              examples3.stipple examples3.mask examples3.c0_7)
    as (r & rep & σ' & R & Hrun & Hr & Hdt & Hsh & _ & _ & Hpix & _);
    [reflexivity | reflexivity | reflexivity | reflexivity | reflexivity |].
  exists r, rep, σ', R.
  split_and!; [done | done | done | done | | | |].
  - destruct (Hpix 2 2 0 0 eq_refl) as (x & y & Hx & Hy & HR & _); [lia..|].
    injection Hx as <-. injection Hy as <-. exact HR.
  - destruct (Hpix 2 2 0 1 eq_refl) as (x & y & Hx & Hy & HR & _); [lia..|].
    injection Hx as <-. injection Hy as <-. exact HR.
  - destruct (Hpix 2 2 1 0 eq_refl) as (x & y & Hx & Hy & HR & _); [lia..|].
    injection Hx as <-. injection Hy as <-. exact HR.
  - destruct (Hpix 2 2 1 1 eq_refl) as (x & y & Hx & Hy & _ & HR); [lia..|].
    injection Hx as <-. injection Hy as <-. by apply HR.
Defined.

(** X2.  The stipple counts add up: the dots reported as removed are the
    dots that lay under the mask, the dots reported as remaining are the
    dots outside it, and so no more dots are removed than there were dots
    or masked pixels.  A mask pixel is under the mask when it is below
    the threshold in the dtype of the mask. *)
Theorem create_masked_stipple_report_stipples
    (σ : heap) s m (S M : tarray) t :
  σ !! s = Some S → σ !! m = Some M →
  shape (values S) = shape (values M) →
  np.wf (values S) → np.wf (values M) →
  (Z.of_nat (np.size (values S)) < 2 ^ 63)%Z →
  let dot := λ x, SFeqb x float64.zero in
  let below := λ y, SFltb y (cast (dt M) t) in
  ∃ r rep σ',
    create_masked_stipple s m t σ = Some (py.Return (r, rep), σ')
    ∧ original_stipples rep = count_true (dot <$> data (values S))
    ∧ remaining_stipples rep
      = count_true (zip_with (λ x y, dot x && negb (below y))
                      (data (values S)) (data (values M)))
    ∧ removed_stipples rep
      = count_true (zip_with (λ x y, dot x && below y)
                      (data (values S)) (data (values M)))
    ∧ (0 ≤ removed_stipples rep ≤ mask_pixels rep)%Z
    ∧ (remaining_stipples rep ≤ original_stipples rep)%Z.
Proof.
  intros Hs Hm Hsh HwS HwM Hsize dot below.
  assert (length (data (values S)) = length (data (values M))) as Hlen.
  { rewrite HwS, HwM. unfold np.size. by rewrite Hsh. }
  rewrite (create_masked_stipple_typed_run σ s m S M t Hs Hm).
  rewrite decide_True by done. cbv zeta.
  eexists _, _, _. split; [done|].
  cbn [original_stipples remaining_stipples removed_stipples mask_pixels].
  rewrite !sum_count; cbn [equal less masked_t values data];
    rewrite ?length_fmap, ?length_putmask, <- ?Hlen, ?HwS; try done.
  rewrite !cast_zero. fold dot. fold below.
  destruct (count_dots_split dot below (cast (dt S) float64.one)
              (data (values S)) (data (values M))
              (cast_one_not_zero (dt S)) Hlen) as (H1 & H2 & H3).
  pose proof (count_true_bounds
    (zip_with (λ x y, dot x && below y)
       (data (values S)) (data (values M)))) as [Hge _].
  pose proof (count_true_bounds
    (zip_with (λ x y, dot x && negb (below y))
       (data (values S)) (data (values M)))) as [Hge' Hle'].
  rewrite length_zip_with, <- Hlen, Nat.min_id, HwS in Hle'.
  pose proof (count_true_bounds (below <$> data (values M))) as [_ Hle].
  rewrite length_fmap, <- Hlen, HwS in Hle.
  rewrite H1, H2. rewrite int64_small by lia.
  split_and!; try done; lia.
Qed.

Lemma create_masked_stipple_report_stipples_witness :
  let σ := examples3.heap0 in
  (σ !! 1%positive = Some examples3.stipple
   ∧ σ !! 2%positive = Some examples3.mask)
  ∧ ∃ r rep σ',
    create_masked_stipple 1 2 examples3.c0_7 σ
    = Some (py.Return (r, rep), σ')
    ∧ original_stipples rep = 2%Z
    ∧ remaining_stipples rep = 1%Z
    ∧ removed_stipples rep = 1%Z.
Proof.
  split; [by vm_compute|].
  destruct (create_masked_stipple_report_stipples examples3.heap0 1 2
              examples3.stipple examples3.mask examples3.c0_7)
    as (r & rep & σ' & Hrun & Ho & Hr & Hd & _);
    [reflexivity | reflexivity | reflexivity | reflexivity | reflexivity
    | by vm_compute |].
  exists r, rep, σ'. split_and!; [done | exact Ho | exact Hr | exact Hd].
Defined.

(** X3.  The reported mask area is the number of mask pixels below the
    threshold (compared in the dtype of the mask) and never exceeds the
    reported total.  When it is 0 the returned array equals the stipple
    image, and when it equals the total the returned array is all [1.0].
    For an empty image the percentage of line 65 is 0/0, a NaN, and the
    call returns all the same. *)
Theorem create_masked_stipple_report_mask_pixels
    (σ : heap) s m (S M : tarray) t :
  σ !! s = Some S → σ !! m = Some M →
  shape (values S) = shape (values M) →
  np.wf (values S) → np.wf (values M) →
  (Z.of_nat (np.size (values S)) < 2 ^ 63)%Z →
  ∃ r rep σ' R,
    create_masked_stipple s m t σ = Some (py.Return (r, rep), σ')
    ∧ σ' !! r = Some R
    ∧ total_pixels rep = Z.of_nat (np.size (values S))
    ∧ mask_pixels rep
      = count_true ((λ y, SFltb y (cast (dt M) t)) <$> data (values M))
    ∧ (0 ≤ mask_pixels rep ≤ total_pixels rep)%Z
    ∧ (mask_pixels rep = 0%Z → R = S)
    ∧ (mask_pixels rep = total_pixels rep →
       data (values R)
       = replicate (np.size (values S)) (cast (dt S) float64.one))
    ∧ (total_pixels rep = 0%Z → mask_percentage rep = S754_nan).
Proof.
  intros Hs Hm Hsh HwS HwM Hsize.
  assert (length (data (values S)) = length (data (values M))) as Hlen.
  { rewrite HwS, HwM. unfold np.size. by rewrite Hsh. }
  rewrite (create_masked_stipple_typed_run σ s m S M t Hs Hm).
  rewrite decide_True by done. cbv zeta.
  eexists _, _, _, _. split; [done|].
  rewrite lookup_insert_eq. split; [done|].
  cbn [total_pixels mask_pixels mask_percentage].
  rewrite sum_count
    by (cbn [less data]; by rewrite length_fmap, <- Hlen, HwS).
  cbn [less data].
  pose proof (count_true_bounds
    ((λ y, SFltb y (cast (dt M) t)) <$> data (values M))) as Hbounds.
  rewrite length_fmap, <- Hlen, HwS in Hbounds.
  split_and!; [done | done | lia | lia | | |].
  - intros H0%count_true_0. unfold masked_t.
    rewrite putmask_none by done. by destruct S as [d [sh xs]].
  - intros Hall. unfold masked_t; cbn [values data].
    rewrite putmask_all; [by rewrite HwS | by rewrite length_fmap, Hlen |].
    apply count_true_all. by rewrite length_fmap, <- Hlen, HwS.
  - intros Htotal. rewrite Htotal in *.
    assert (count_true ((λ y, SFltb y (cast (dt M) t)) <$> data (values M))
            = 0%Z) as -> by lia.
    reflexivity.
Qed.

Lemma create_masked_stipple_report_mask_pixels_witness :
  let σ := examples3.heap0 in
  (σ !! 1%positive = Some examples3.stipple
   ∧ σ !! 2%positive = Some examples3.mask)
  ∧ ∃ r rep σ' R,
    create_masked_stipple 1 2 examples3.c0_7 σ
    = Some (py.Return (r, rep), σ')
    ∧ σ' !! r = Some R
    ∧ total_pixels rep = 4%Z ∧ mask_pixels rep = 2%Z.
Proof.
  split; [by vm_compute|].
  destruct (create_masked_stipple_report_mask_pixels examples3.heap0 1 2
              examples3.stipple examples3.mask examples3.c0_7)
    as (r & rep & σ' & R & Hrun & HR & Ht & Hp & _);
    [reflexivity | reflexivity | reflexivity | reflexivity | reflexivity
    | by vm_compute |].
  exists r, rep, σ', R. split_and!; [done | done | exact Ht | exact Hp].
Defined.
(** On [float64] arrays the typed function is the function of the
    binary64 model: it returns the same reference, raises the same
    exception and leaves the same arrays behind. *)
Lemma typed_model_extends_float64_model (σ : py.heap) s m t :
  match step5_create_masked.create_masked_stipple s m t σ with
  | Some (py.Return r, σ') =>
      ∃ rep, create_masked_stipple s m t (TArray F64 <$> σ)
             = Some (py.Return (r, rep), TArray F64 <$> σ')
  | Some (py.Raise e, σ') =>
      create_masked_stipple s m t (TArray F64 <$> σ)
      = Some (py.Raise e, TArray F64 <$> σ')
  | None => create_masked_stipple s m t (TArray F64 <$> σ) = None
  end.
Proof.
  destruct (σ !! s) as [S|] eqn:Hs; [destruct (σ !! m) as [M|] eqn:Hm|].
  - assert ((TArray F64 <$> σ) !! s = Some (TArray F64 S)) as Hs'
      by (rewrite lookup_fmap; unfold float64.t in *; by rewrite Hs).
    assert ((TArray F64 <$> σ) !! m = Some (TArray F64 M)) as Hm'
      by (rewrite lookup_fmap; unfold float64.t in *; by rewrite Hm).
    rewrite (create_masked_stipple_run σ s m S M t Hs Hm).
    rewrite (create_masked_stipple_typed_run _ s m _ _ t Hs' Hm').
    cbn [values]. rewrite dom_fmap_L.
    destruct (decide (shape S = shape M)) as [Heq|Hne].
    + rewrite decide_True by done. cbv zeta. eexists.
      by rewrite fmap_insert.
    + by rewrite decide_False.
  - unfold step5_create_masked.create_masked_stipple, create_masked_stipple,
      ndarray_ops.get_shape, get_shape, py.bind, py.load, py.ret,
      bind, load, ret.
    unfold float64.t in *.
    rewrite lookup_fmap, Hs; simpl. by rewrite lookup_fmap, Hm.
  - unfold step5_create_masked.create_masked_stipple, create_masked_stipple,
      ndarray_ops.get_shape, get_shape, py.bind, py.load, py.ret,
      bind, load, ret.
    unfold float64.t in *.
    by rewrite lookup_fmap, Hs.
Qed.
End typed.

(** ** Raising the threshold *)
Section thresholds.
Import py step5_create_masked.

Ltac order_cases :=
  repeat match goal with
  | H : context [Pos.compare_cont Eq ?a ?b] |- _ =>
      change (Pos.compare_cont Eq a b) with (Pos.compare a b) in H
  | |- context [Pos.compare_cont Eq ?a ?b] =>
      change (Pos.compare_cont Eq a b) with (Pos.compare a b)
  | H : context [Z.compare ?a ?b] |- _ =>
      destruct (Z.compare_spec a b); try discriminate H
  | H : context [Pos.compare ?a ?b] |- _ =>
      destruct (Pos.compare_spec a b); try discriminate H
  | |- context [Z.compare ?a ?b] => destruct (Z.compare_spec a b)
  | |- context [Pos.compare ?a ?b] => destruct (Pos.compare_spec a b)
  end.

(** [y < t1] and [t1 <= t2] give [y < t2], also for infinities and
    zeros of either sign; a NaN satisfies neither hypothesis. *)
Lemma lt_le_trans (y t1 t2 : float64.t) :
  float64.lt y t1 = true → float64.le t1 t2 = true → float64.lt y t2 = true.
Proof.
  unfold float64.lt, float64.le, SFltb, SFleb.
  destruct y as [[]|[]| |[] my ey], t1 as [[]|[]| |[] m1 e1],
    t2 as [[]|[]| |[] m2 e2];
    cbn [SFcompare]; try done;
    intros Hlt Hle; order_cases; subst; try done; try lia.
Qed.

Lemma putmask_absorb {A B} (f g : B → bool) (xs : list A) (ys : list B) v :
  (∀ y, f y = true → g y = true) →
  np.putmask (np.putmask xs (f <$> ys) v) (g <$> ys) v
  = np.putmask xs (g <$> ys) v
  ∧ np.putmask (np.putmask xs (g <$> ys) v) (f <$> ys) v
    = np.putmask xs (g <$> ys) v.
Proof.
  intros Hfg. revert ys.
  induction xs as [|x xs IH]; intros [|y ys]; simpl; [done..|].
  destruct (IH ys) as [IH1 IH2]. specialize (Hfg y).
  split; (f_equal; [|done]); destruct (f y), (g y); try done;
    by discriminate Hfg.
Qed.
Lemma create_masked_stipple_twice (σ : heap) s m S M t t' :
  σ !! s = Some S → σ !! m = Some M → shape S = shape M →
  ∃ r1 σ1 r2 σ2,
    create_masked_stipple s m t σ = Some (Return r1, σ1)
    ∧ create_masked_stipple r1 m t' σ1 = Some (Return r2, σ2)
    ∧ σ2 !! r2 = Some (masked (masked S M t) M t').
Proof.
  intros Hs Hm Hsh.
  set (r1 := fresh (dom σ)). set (σ1 := <[r1 := masked S M t]> σ).
  assert (σ1 !! m = Some M) as Hm1.
  { unfold σ1. rewrite lookup_insert_ne; [done|].
    intros Heq. unfold r1 in Heq. rewrite <- Heq in Hm.
    by rewrite fresh_unbound in Hm. }
  exists r1, σ1, (fresh (dom σ1)),
    (<[fresh (dom σ1) := masked (masked S M t) M t']> σ1).
  split_and!.
  - by apply create_masked_stipple_ok.
  - apply create_masked_stipple_ok; [apply lookup_insert_eq | done | done].
  - by rewrite lookup_insert_eq.
Qed.

(** X4.  Of two thresholds only the larger one matters: masking with
    [t1] and then with [t2 >= t1], or with [t2] and then with [t1], gives
    the array that masking once with [t2] gives. *)
Theorem create_masked_stipple_larger_threshold (σ : heap) s m S M t1 t2 :
  σ !! s = Some S → σ !! m = Some M → shape S = shape M →
  float64.le t1 t2 = true →
  ∃ r σ' R,
    create_masked_stipple s m t2 σ = Some (Return r, σ')
    ∧ σ' !! r = Some R
    ∧ (∃ r1 σ1 r2 σ2,
          create_masked_stipple s m t1 σ = Some (Return r1, σ1)
          ∧ create_masked_stipple r1 m t2 σ1 = Some (Return r2, σ2)
          ∧ σ2 !! r2 = Some R)
    ∧ (∃ r1 σ1 r2 σ2,
          create_masked_stipple s m t2 σ = Some (Return r1, σ1)
          ∧ create_masked_stipple r1 m t1 σ1 = Some (Return r2, σ2)
          ∧ σ2 !! r2 = Some R).
Proof.
  intros Hs Hm Hsh Hle.
  destruct (putmask_absorb (λ y, float64.lt y t1) (λ y, float64.lt y t2)
              (data S) (data M) float64.one) as [H12 H21].
  { intros y Hy. by apply (lt_le_trans y t1 t2). }
  exists (fresh (dom σ)), (<[fresh (dom σ) := masked S M t2]> σ),
    (masked S M t2).
  split_and!.
  - by apply create_masked_stipple_ok.
  - by rewrite lookup_insert_eq.
  - destruct (create_masked_stipple_twice σ s m S M t1 t2 Hs Hm Hsh)
      as (r1 & σ1 & r2 & σ2 & Hrun1 & Hrun2 & HR).
    exists r1, σ1, r2, σ2. split_and!; [done | done |].
    rewrite HR. f_equal. unfold masked; cbn [shape data]. by rewrite H12.
  - destruct (create_masked_stipple_twice σ s m S M t2 t1 Hs Hm Hsh)
      as (r1 & σ1 & r2 & σ2 & Hrun1 & Hrun2 & HR).
    exists r1, σ1, r2, σ2. split_and!; [done | done |].
    rewrite HR. f_equal. unfold masked; cbn [shape data]. by rewrite H21.
Qed.

Lemma create_masked_stipple_larger_threshold_witness :
  let σ := examples.heap0 in
  (σ !! 1%positive = Some examples.stipple
   ∧ σ !! 2%positive = Some examples.mask
   ∧ float64.le examples.half float64.one = true)
  ∧ ∃ r σ' R,
    create_masked_stipple 1 2 float64.one σ = Some (Return r, σ')
    ∧ σ' !! r = Some R
    ∧ (∃ r1 σ1 r2 σ2,
          create_masked_stipple 1 2 examples.half σ = Some (Return r1, σ1)
          ∧ create_masked_stipple r1 2 float64.one σ1 = Some (Return r2, σ2)
          ∧ σ2 !! r2 = Some R)
    ∧ (∃ r1 σ1 r2 σ2,
          create_masked_stipple 1 2 float64.one σ = Some (Return r1, σ1)
          ∧ create_masked_stipple r1 2 examples.half σ1
            = Some (Return r2, σ2)
          ∧ σ2 !! r2 = Some R).
Proof.
  split; [by vm_compute|].
  apply (create_masked_stipple_larger_threshold examples.heap0 1 2
           examples.stipple examples.mask examples.half float64.one);
    reflexivity.
Defined.
End thresholds.


(** ** When [create_statistics_meme] accepts its input *)
Section meme_validation.
Import create_meme.

(** X5.  The validation lets a call through exactly when all four images
    have one and the same two-dimensional shape; four images that agree
    on a shape of any other rank are rejected. *)
Theorem create_statistics_meme_accepts
    (a b c d : ndarray float64.t) (h w : nat) :
  create_statistics_meme a b c d = inr (h, w)
  ↔ shape a = [h; w] ∧ shape b = [h; w] ∧ shape c = [h; w]
    ∧ shape d = [h; w].
Proof.
  unfold create_statistics_meme. split.
  - destruct (shape a) as [|h' [|w' [|? ?]]] eqn:Ha; try done.
    rewrite !check_images_cons, Ha, decide_True by done.
    repeat case_decide; try done. cbn [check_images].
    intros [= -> ->]. done.
  - intros (Ha & Hb & Hc & Hd).
    rewrite Ha, !check_images_cons, Ha, Hb, Hc, Hd.
    by rewrite !decide_True.
Qed.

(** X6.  The validation loop stops at the first image whose shape is not
    the expected one and names that image, whatever comes after it; it
    ends normally exactly when every image has the expected shape. *)
Theorem check_images_first_offender
    (images : list (string * ndarray float64.t)) (h w : nat) :
  (check_images images h w = inr ()
   ↔ Forall (λ entry, shape entry.2 = [h; w]) images)
  ∧ ∀ e, check_images images h w = inl e
         ↔ ∃ before name img after,
             images = before ++ (name, img) :: after
             ∧ Forall (λ entry, shape entry.2 = [h; w]) before
             ∧ shape img ≠ [h; w]
             ∧ e = dimension_error name (shape img) h w.
Proof.
  induction images as [|[name img] images [IHok IHerr]].
  - split; [done|]. intros e. split; [done|].
    intros (before & ? & ? & ? & Heq & _). by destruct before.
  - rewrite check_images_cons.
    destruct (decide (shape img = [h; w])) as [Hsh|Hsh].
    + split.
      * rewrite IHok, Forall_cons. by intuition.
      * intros e. rewrite IHerr. split.
        -- intros (before & n & i & after & -> & Hbefore & Hi & ->).
           exists ((name, img) :: before), n, i, after.
           split_and!; try done. by constructor.
        -- intros (before & n & i & after & Heq & Hbefore & Hi & ->).
           destruct before as [|entry before]; simplify_eq/=.
           apply Forall_cons in Hbefore as [_ Hbefore].
           by exists before, n, i, after.
    + split.
      * split; [done|]. by intros [? _]%Forall_cons.
      * intros e. split.
        -- intros [= <-]. by exists [], name, img, images.
        -- intros (before & n & i & after & Heq & Hbefore & Hi & ->).
           destruct before as [|entry before]; simplify_eq/=; [done|].
           by apply Forall_cons in Hbefore as [? _].
Qed.
End meme_validation.

(** ** The font that [create_block_letter_s] draws with *)
Section font_chain.
Import step4_create_block_letter.
Context {font : Type}.
Variable truetype : string → Z → option Z → attempt font.
Variable load_default : font.

(** The call that the loop makes for one candidate. *)
Let call (font_size : Z) (font_path : string) : attempt font :=
  if endswith font_path ".ttc"
  then truetype font_path font_size (Some 0%Z)
  else truetype font_path font_size None.

Lemma try_paths_app before font_path after font_size :
  Forall (λ q, call font_size q = OSError) before →
  try_paths truetype (before ++ font_path :: after) font_size
  = match call font_size font_path with
    | Loaded f => inr (Some f)
    | OSError => try_paths truetype after font_size
    | Failed e => inl e
    end.
Proof.
  induction 1 as [|q before Hq _ IH]; [done|].
  cbn [app try_paths]. fold (call font_size q). by rewrite Hq.
Qed.

Lemma try_paths_all_OSError paths font_size :
  Forall (λ q, call font_size q = OSError) paths →
  try_paths truetype paths font_size = inr None.
Proof.
  induction 1 as [|q paths Hq _ IH]; [done|].
  cbn [try_paths]. fold (call font_size q). by rewrite Hq.
Qed.

Lemma try_paths_no_failure paths font_size :
  (∀ path index e, truetype path font_size index ≠ Failed e) →
  ∃ o, try_paths truetype paths font_size = inr o.
Proof.
  intros Hok. induction paths as [|q paths [o IH]]; [by eexists|].
  cbn [try_paths]. fold (call font_size q).
  destruct (call font_size q) as [f| |e] eqn:Hq; [by eexists | by eexists |].
  unfold call in Hq. destruct (endswith q ".ttc"); by apply Hok in Hq.
Qed.

(** X7.  The letter is drawn with the first candidate of the platform's
    list that loads, the ones before it having raised [OSError]; when all
    of them raise [OSError] the outcome is that of loading [arial.ttf],
    with the built-in font standing in when that raises [OSError] too;
    and if the loader raises nothing but [OSError], a font is always
    obtained. *)
Theorem load_font_fallback_order (system : string) (font_size : Z) :
  (∀ before font_path after f,
      font_paths system = before ++ font_path :: after →
      Forall (λ q, call font_size q = OSError) before →
      call font_size font_path = Loaded f →
      load_font truetype load_default system font_size = inr f)
  ∧ (Forall (λ q, call font_size q = OSError) (font_paths system) →
     load_font truetype load_default system font_size
     = match truetype "arial.ttf" font_size None with
       | Loaded f => inr f
       | OSError => inr load_default
       | Failed e => inl e
       end)
  ∧ ((∀ path index e, truetype path font_size index ≠ Failed e) →
     ∃ f, load_font truetype load_default system font_size = inr f).
Proof.
  unfold load_font. split_and!.
  - intros before font_path after f -> Hbefore Hload.
    by rewrite (try_paths_app _ _ _ _ Hbefore), Hload.
  - intros Hall. by rewrite (try_paths_all_OSError _ _ Hall).
  - intros Hok.
    destruct (try_paths_no_failure (font_paths system) font_size Hok)
      as [[f|] ->]; [by eexists|].
    destruct (truetype "arial.ttf" font_size None) as [f| |e] eqn:Harial;
      [by eexists | by eexists | by apply Hok in Harial].
Qed.
End font_chain.

Lemma load_font_fallback_order_witness :
  step4_create_block_letter.load_font
    examples2.only_liberation "builtin" "Linux" 109
  = inr "/usr/share/fonts/truetype/liberation/LiberationSans-Bold.ttf"
  ∧ step4_create_block_letter.load_font
      examples2.only_liberation "builtin" "Darwin" 109
    = inr "builtin".
Proof.
  destruct (load_font_fallback_order examples2.only_liberation "builtin"
              "Linux" 109) as (Hfirst & _ & _).
  destruct (load_font_fallback_order examples2.only_liberation "builtin"
              "Darwin" 109) as (_ & Hnone & _).
  split.
  - apply (Hfirst ["/usr/share/fonts/truetype/dejavu/DejaVuSans-Bold.ttf"]
             "/usr/share/fonts/truetype/liberation/LiberationSans-Bold.ttf"
             ["/usr/share/fonts/truetype/noto/NotoSans-Bold.ttf"]);
      [reflexivity | by repeat constructor | reflexivity].
  - rewrite Hnone; [reflexivity | by repeat constructor].
Defined.


(** ** Centring and the fallback stroke *)
Section geometry.
Import step4_create_block_letter.
Local Open Scope Z_scope.

(** X8.  Drawn at the computed position, the box that was measured at
    the origin sits in the middle of the canvas: the margin on the right
    exceeds the margin on the left by 0 or 1 pixel, and likewise bottom
    against top, also when the box is larger than the canvas or is
    measured with a non-zero origin. *)
Theorem text_position_centred (width height x0 y0 x1 y1 : Z) :
  let p := text_position width height (x0, y0, x1, y1) in
  let margin_left := p.1 + x0 in
  let margin_right := width - (p.1 + x1) in
  let margin_top := p.2 + y0 in
  let margin_bottom := height - (p.2 + y1) in
  margin_left ≤ margin_right ≤ margin_left + 1
  ∧ margin_top ≤ margin_bottom ≤ margin_top + 1
  ∧ margin_left = (width - (x1 - x0)) `div` 2
  ∧ margin_top = (height - (y1 - y0)) `div` 2.
Proof.
  cbv zeta. unfold text_position; cbn [fst snd].
  pose proof (Z.div_mod (width - (x1 - x0)) 2).
  pose proof (Z.mod_pos_bound (width - (x1 - x0)) 2).
  pose proof (Z.div_mod (height - (y1 - y0)) 2).
  pose proof (Z.mod_pos_bound (height - (y1 - y0)) 2).
  lia.
Qed.

Lemma elem_of_range (a b k : Z) : k ∈ range a b ↔ a ≤ k < b.
Proof. unfold range. rewrite elem_of_seqZ. lia. Qed.

Lemma elem_of_stroke_offsets (sw dx dy : Z) :
  0 ≤ sw → (dx, dy) ∈ stroke_offsets sw ↔ dx * dx + dy * dy ≤ sw * sw.
Proof.
  intros Hsw. unfold stroke_offsets.
  rewrite list_elem_of_bind. setoid_rewrite list_elem_of_bind.
  setoid_rewrite elem_of_range. split.
  - intros (a & (b & Hin & _) & _). case_bool_decide; [|by inv Hin].
    apply list_elem_of_singleton in Hin. by simplify_eq.
  - intros Hdisc. exists dx. split; [exists dy; split|].
    + rewrite bool_decide_eq_true_2 by done. by apply list_elem_of_singleton.
    + nia.
    + nia.
Qed.

Lemma NoDup_stroke_offsets (sw : Z) : NoDup (stroke_offsets sw).
Proof.
  unfold stroke_offsets, range.
  apply NoDup_bind; [| |apply NoDup_seqZ].
  - intros a1 a2 [dx dy] _ _ (b1 & H1 & _)%list_elem_of_bind
      (b2 & H2 & _)%list_elem_of_bind.
    repeat case_bool_decide; try by inv H1. 
    apply list_elem_of_singleton in H1, H2. congruence.
    all: by inv H2.
  - intros a _. apply NoDup_bind; [| |apply NoDup_seqZ].
    + intros b1 b2 [dx dy] _ _ H1 H2.
      repeat case_bool_decide; try by inv H1.
      apply list_elem_of_singleton in H1, H2. congruence.
      all: by inv H2.
    + intros b _. case_bool_decide; [apply NoDup_singleton | constructor].
Qed.

(** X9.  For a positive stroke width the fallback stamps the letter once
    at every integer offset of the closed disc of that radius, and at no
    other offset; the letter is then drawn once more at the unshifted
    position, which is the last call. *)
Theorem stroke_stamps_disc (x y stroke_width : Z) :
  0 < stroke_width →
  (∀ dx dy, (dx, dy) ∈ stroke_offsets stroke_width
            ↔ dx * dx + dy * dy ≤ stroke_width * stroke_width)
  ∧ NoDup (stroke_offsets stroke_width)
  ∧ (∀ px py, (px, py) ∈ stroke_stamps x y stroke_width
              ↔ (px - x) * (px - x) + (py - y) * (py - y)
                ≤ stroke_width * stroke_width)
  ∧ last (stroke_stamps x y stroke_width) = Some (x, y)
  ∧ length (stroke_stamps x y stroke_width)
    = S (length (stroke_offsets stroke_width)).
Proof.
  intros Hsw. split_and!.
  - intros dx dy. apply elem_of_stroke_offsets. lia.
  - apply NoDup_stroke_offsets.
  - intros px py. unfold stroke_stamps.
    rewrite elem_of_app, list_elem_of_singleton, list_elem_of_fmap. split.
    + intros [([dx dy] & [= -> ->] & Hin)|[= -> ->]].
      * apply elem_of_stroke_offsets in Hin; [|lia]. cbn [fst snd]. nia.
      * nia.
    + intros Hdisc. left. exists (px - x, py - y). split.
      * cbn [fst snd]. f_equal; lia.
      * apply elem_of_stroke_offsets; [lia | done].
  - apply last_snoc.
  - unfold stroke_stamps. rewrite length_app, length_fmap. simpl. lia.
Qed.

Lemma stroke_stamps_disc_witness :
  stroke_offsets 1 = [(-1, 0); (0, -1); (0, 0); (0, 1); (1, 0)]
  ∧ last (stroke_stamps 10 20 1) = Some (10, 20)
  ∧ length (stroke_stamps 10 20 1) = 6%nat
  ∧ NoDup (stroke_offsets 1).
Proof.
  destruct (stroke_stamps_disc 10 20 1) as (_ & Hnodup & _ & Hlast & Hlen);
    [lia|].
  split_and!; [reflexivity | exact Hlast | exact Hlen | exact Hnodup].
Defined.
End geometry.


(** ** From the canvas to the array *)
Section conversion.
Import step4_create_block_letter.

Local Instance spec_float_eq_dec : EqDecision spec_float.
Proof. solve_decision. Defined.

Lemma byte_eqb_true (p q : Byte.byte) : Byte.eqb p q = true ↔ p = q.
Proof. split; [apply Byte.byte_dec_bl | apply Byte.byte_dec_lb]. Qed.

(** A property that holds of the 256 bytes holds of every byte. *)
Lemma byte_forall (P : Byte.byte → bool) :
  forallb (λ n, match Byte.of_nat n with Some b => P b | None => true end)
    (seq 0 256) = true →
  ∀ b, P b = true.
Proof.
  intros Hall b. rewrite forallb_forall in Hall.
  specialize (Hall (Byte.to_nat b)). rewrite Byte.of_to_nat in Hall.
  apply Hall, in_seq. pose proof (Byte.to_nat_bounded b). lia.
Qed.

Lemma normalize_in_unit (p : Byte.byte) :
  float32.in_unit (normalize p) = true.
Proof. revert p. apply byte_forall. by vm_compute. Qed.

Lemma float_lt_irrefl (x : spec_float) : SFltb x x = false.
Proof.
  unfold SFltb. destruct x as [[]|[]| |[] m e]; cbn [SFcompare]; try done;
    rewrite Z.compare_refl;
    change (Pos.compare_cont Eq m m) with (Pos.compare m m);
    by rewrite Pos.compare_refl.
Qed.

Lemma float_lt_trans (x y z : spec_float) :
  SFltb x y = true → SFltb y z = true → SFltb x z = true.
Proof.
  intros Hxy Hyz. apply (lt_le_trans x y z Hxy).
  unfold float64.le, SFleb. unfold SFltb in Hyz.
  by destruct (SFcompare y z) as [[]|].
Qed.

Lemma grey_level_of_byte (p : Byte.byte) :
  normalize p = grey_level (Byte.to_nat p).
Proof. unfold grey_level. by rewrite Byte.of_to_nat. Qed.

Lemma grey_level_increasing (i j : nat) :
  i < j → j ≤ 255 → float32.lt (grey_level i) (grey_level j) = true.
Proof.
  assert (forallb (λ n, float32.lt (grey_level n) (grey_level (S n)))
            (seq 0 255) = true) as Hstep by (vm_compute; reflexivity).
  rewrite forallb_forall in Hstep.
  assert (∀ n, n < 255 →
            float32.lt (grey_level n) (grey_level (S n)) = true) as Hsucc.
  { intros n Hn. apply Hstep, in_seq. lia. }
  intros Hij Hj. induction j as [|j IH]; [lia|].
  destruct (decide (i = j)) as [->|Hne]; [apply Hsucc; lia|].
  apply (float_lt_trans _ (grey_level j)); [apply IH; lia | apply Hsucc; lia].
Qed.

Lemma normalize_order (p q : Byte.byte) :
  float32.lt (normalize p) (normalize q)
  = bool_decide (Byte.to_N p < Byte.to_N q)%N.
Proof.
  rewrite !Byte.to_N_via_nat, !grey_level_of_byte.
  pose proof (Byte.to_nat_bounded p) as Hp.
  pose proof (Byte.to_nat_bounded q) as Hq.
  destruct (lt_eq_lt_dec (Byte.to_nat p) (Byte.to_nat q)) as [[Hlt|Heq]|Hgt].
  - rewrite bool_decide_eq_true_2 by lia. by apply grey_level_increasing.
  - rewrite bool_decide_eq_false_2 by lia. rewrite Heq.
    apply float_lt_irrefl.
  - rewrite bool_decide_eq_false_2 by lia.
    pose proof (grey_level_increasing _ _ Hgt Hp) as Hqp.
    destruct (float32.lt (grey_level (Byte.to_nat p))
                (grey_level (Byte.to_nat q))) eqn:Hpq; [|done].
    pose proof (float_lt_trans _ _ _ Hpq Hqp) as Hpp.
    unfold float32.lt in Hpp. by rewrite float_lt_irrefl in Hpp.
Qed.

(** X10.  Whatever has been drawn on a canvas of the given width and
    height, the array made from it has shape (height, width), holds one
    element per pixel, and every element lies in [[0, 1]]. *)
Theorem to_array_shape_and_range (img : pil_image) :
  im_wf img →
  shape (to_array img) = [im_height img; im_width img]
  ∧ np.wf (to_array img)
  ∧ Forall (λ v, float32.in_unit v = true) (data (to_array img))
  ∧ ∀ row col, row < im_height img → col < im_width img →
      ∃ p, im_bytes img !! (row * im_width img + col) = Some p
           ∧ np.item2 (to_array img) row col = Some (normalize p).
Proof.
  intros Hwf. unfold im_wf in Hwf. split_and!.
  - done.
  - unfold np.wf, np.size, to_array; cbn [shape data foldr].
    rewrite length_fmap, Hwf. lia.
  - unfold to_array; cbn [data]. apply Forall_fmap, Forall_forall.
    intros p _. apply normalize_in_unit.
  - intros row col Hrow Hcol.
    destruct (lookup_lt_is_Some_2 (im_bytes img) (row * im_width img + col))
      as [p Hp]; [rewrite Hwf; nia|].
    exists p. split; [done|].
    unfold np.item2, to_array; cbn [shape data].
    rewrite decide_True by done. by rewrite list_lookup_fmap, Hp.
Qed.

Lemma to_array_shape_and_range_witness :
  im_wf examples2.canvas
  ∧ shape (to_array examples2.canvas) = [2; 3]
  ∧ np.item2 (to_array examples2.canvas) 0 1 = Some float32.zero
  ∧ np.item2 (to_array examples2.canvas) 1 2 = Some float32.one.
Proof.
  destruct (to_array_shape_and_range examples2.canvas)
    as (Hshape & _ & _ & Hpix); [reflexivity|].
  split_and!; [reflexivity | exact Hshape | |].
  - destruct (Hpix 0 1) as (p & Hp & ->); [simpl; lia | simpl; lia |].
    injection Hp as <-. reflexivity.
  - destruct (Hpix 1 2) as (p & Hp & ->); [simpl; lia | simpl; lia |].
    injection Hp as <-. reflexivity.
Defined.

(** X11.  The conversion keeps black and white exact and keeps the order
    of grey levels: a pixel becomes [0.0] only if its byte is 0, [1.0]
    only if its byte is 255, and a darker byte always gives a strictly
    smaller number, so distinct bytes give distinct numbers. *)
Theorem normalize_exact_and_monotone (p q : Byte.byte) :
  (normalize p = float32.zero ↔ p = Byte.x00)
  ∧ (normalize p = float32.one ↔ p = Byte.xff)
  ∧ (float32.lt (normalize p) (normalize q) = true
     ↔ (Byte.to_N p < Byte.to_N q)%N)
  ∧ (normalize p = normalize q ↔ p = q).
Proof.
  assert (∀ p, bool_decide (normalize p = float32.zero)
               = Byte.eqb p Byte.x00) as Hzero.
  { intros p'. apply (bool_decide_eq_true_1 _). revert p'.
    apply (byte_forall (λ p', bool_decide
             (bool_decide (normalize p' = float32.zero)
              = Byte.eqb p' Byte.x00))).
    by vm_compute. }
  assert (∀ p, bool_decide (normalize p = float32.one)
               = Byte.eqb p Byte.xff) as Hone.
  { intros p'. apply (bool_decide_eq_true_1 _). revert p'.
    apply (byte_forall (λ p', bool_decide
             (bool_decide (normalize p' = float32.one)
              = Byte.eqb p' Byte.xff))).
    by vm_compute. }
  assert (float32.lt (normalize p) (normalize q) = true
          ↔ (Byte.to_N p < Byte.to_N q)%N) as Hlt.
  { rewrite normalize_order. apply bool_decide_eq_true. }
  split_and!.
  - by rewrite <- byte_eqb_true, <- Hzero, bool_decide_eq_true.
  - by rewrite <- byte_eqb_true, <- Hone, bool_decide_eq_true.
  - exact Hlt.
  - split; [|by intros ->]. intros Heq.
    assert (Byte.to_N p = Byte.to_N q) as HN.
    { destruct (N.lt_trichotomy (Byte.to_N p) (Byte.to_N q))
        as [Hpq|[Hpq|Hpq]]; [|done|].
      - apply Hlt in Hpq. rewrite Heq in Hpq.
        by rewrite normalize_order, bool_decide_eq_false_2 in Hpq by lia.
      - pose proof (normalize_order q p) as Hqp.
        rewrite bool_decide_eq_true_2 in Hqp by lia. rewrite Heq in Hqp.
        by rewrite normalize_order, bool_decide_eq_false_2 in Hqp by lia. }
    apply (f_equal Byte.of_N) in HN. rewrite !Byte.of_to_N in HN.
    by injection HN.
Qed.

(** X12.  Before anything is drawn the canvas is white: the canvas that
    [Image.new] creates with colour 255 converts to an array of shape
    (height, width) whose elements are all [1.0]. *)
Theorem blank_canvas_is_white (width height : nat) :
  im_wf (image_new width height Byte.xff)
  ∧ to_array (image_new width height Byte.xff)
    = NDArray [height; width] (replicate (height * width) float32.one).
Proof.
  split.
  - unfold im_wf, image_new; cbn. by rewrite length_replicate.
  - unfold to_array, image_new; cbn [im_height im_width im_bytes].
    by rewrite fmap_replicate.
Qed.
End conversion.


(** ** The font size *)
Section font_size.
Import step4_font_size.

Example literals_are_correctly_rounded :
  SFdiv float64.prec float64.emax
    (binary_normalize float64.prec float64.emax 115 0 false)
    (binary_normalize float64.prec float64.emax 100 0 false) = c1_15
  ∧ SFdiv float64.prec float64.emax
      (binary_normalize float64.prec float64.emax 95 0 false)
      (binary_normalize float64.prec float64.emax 100 0 false)
    = default_ratio.
Proof. vm_compute. done. Qed.

Example font_size_examples :
  font_size 100 100 default_ratio = FontSize 109
  ∧ font_size 300 400 default_ratio = FontSize 327
  ∧ font_size 400 400 default_ratio = FontSize 436
  ∧ font_size 0 50 default_ratio = FontSize 0.
Proof. vm_compute. done. Qed.
Lemma font_size_min (height width : nat) (ratio : float64.t) :
  font_size height width ratio
  = font_size (height `min` width) (height `min` width) ratio.
Proof. unfold font_size. by rewrite Nat.min_id. Qed.

(** X13.  With the default ratio and a smaller dimension of up to 4096
    pixels the font size is never below that dimension, and it is the
    integer part of 1.0925 times the dimension or, where the binary
    rounding of 0.95 and 1.15 tips the product under an integer, one
    less (436 rather than 437 for a 400 pixel canvas). *)
Theorem font_size_default_ratio (height width : nat) :
  (Z.of_nat (height `min` width) ≤ 4096)%Z →
  ∃ fs, font_size height width default_ratio = FontSize fs
        ∧ (Z.of_nat (height `min` width) ≤ fs
           ∧ 400 * fs ≤ 437 * Z.of_nat (height `min` width)
           ∧ 437 * Z.of_nat (height `min` width) < 400 * (fs + 2))%Z.
Proof.
  intros Hn. rewrite font_size_min.
  assert (forallb font_size_check (seq 0 1025) = true) as Hall1
    by (vm_compute; reflexivity).
  assert (forallb font_size_check (seq 1025 1024) = true) as Hall2
    by (vm_compute; reflexivity).
  assert (forallb font_size_check (seq 2049 1024) = true) as Hall3
    by (vm_compute; reflexivity).
  assert (forallb font_size_check (seq 3073 1024) = true) as Hall4
    by (vm_compute; reflexivity).
  rewrite forallb_forall in Hall1, Hall2, Hall3, Hall4.
  assert (font_size_check (height `min` width) = true) as Hcheck.
  { destruct (decide (height `min` width < 1025)).
    { apply Hall1, in_seq. lia. }
    destruct (decide (height `min` width < 2049)).
    { apply Hall2, in_seq. lia. }
    destruct (decide (height `min` width < 3073)).
    { apply Hall3, in_seq. lia. }
    apply Hall4, in_seq. lia. }
  unfold font_size_check in Hcheck.
  destruct (font_size _ _ _) as [fs| |]; [|discriminate Hcheck..].
  exists fs. split; [done|]. by apply bool_decide_eq_true_1 in Hcheck.
Qed.

Lemma font_size_default_ratio_witness :
  ∃ fs, font_size 400 600 default_ratio = FontSize fs ∧ (436 ≤ fs ≤ 437)%Z.
Proof.
  assert (Z.of_nat (400 `min` 600) = 400%Z) as Hmin
    by (vm_compute; reflexivity).
  destruct (font_size_default_ratio 400 600) as (fs & Hfs & H1 & H2 & H3);
    [rewrite Hmin; lia|].
  rewrite Hmin in H1, H2, H3. exists fs. split; [exact Hfs | lia].
Defined.

(** X14.  A ratio that is not a number makes the call raise ValueError
    from [int()], and an infinite ratio makes it raise OverflowError when
    both dimensions are positive; with a zero dimension the infinite
    ratio gives 0 times infinity, a NaN, hence ValueError again. *)
Theorem font_size_bad_ratio (height width : nat) m e :
  float_of_int (Z.of_nat (height `min` width)) = Some (S754_finite false m e) →
  font_size height width S754_nan
  = RaisesValueError "cannot convert float NaN to integer"
  ∧ (∀ s, font_size height width (S754_infinity s)
          = RaisesOverflowError "cannot convert float infinity to integer")
  ∧ (∀ s, font_size 0 width (S754_infinity s)
          = RaisesValueError "cannot convert float NaN to integer")
  ∧ (∀ s, font_size height 0 (S754_infinity s)
          = RaisesValueError "cannot convert float NaN to integer").
Proof.
  intros Hx. unfold font_size. rewrite Hx. split_and!.
  - done.
  - by intros [].
  - by intros [].
  - intros []; by rewrite Nat.min_0_r.
Qed.

Lemma font_size_bad_ratio_witness :
  font_size 100 100 S754_nan
  = RaisesValueError "cannot convert float NaN to integer"
  ∧ font_size 100 100 (S754_infinity false)
    = RaisesOverflowError "cannot convert float infinity to integer".
Proof.
  destruct (font_size_bad_ratio 100 100 7036874417766400 (-46))
    as (Hnan & Hinf & _); [by vm_compute|].
  split; [exact Hnan | exact (Hinf false)].
Defined.
End font_size.
